(** * dask_spark.core: bridging a Dask cluster and a Spark cluster

    A shallow embedding of [src/dask_spark/core.py] and the properties of
    its two bridges.

    - Python [int]s are [Z]; memory figures, which may be [int] or [float],
      range over a carrier [M] with the [PyNumber] operations the code uses.
    - [str] values are [string]; [dict]s whose iteration order is observed
      are association lists in insertion order ([cluster_info['workers']],
      [hosts]); the [extensions] dicts, only read by key, are [gmap]s.
    - [subprocess.Popen], [atexit.register], [logger.info] and [print] act
      on an explicit process table, hook list, log and standard output.
    - The remote procedure calls a bridge issues through the client are
      appended to a call log, and then run against the cluster state.
    - The scheduler's worker registry and a worker's [status] are written
      by the Dask runtime; the loops that poll them read a sequence of
      observations. *)

From Stdlib Require Import ZArith QArith List String Ascii DecimalString Lia.
From stdpp Require Import gmap strings list fin_maps.

Local Open Scope string_scope.
Local Open Scope list_scope.
Local Open Scope Z_scope.

(** ** Python values *)

Inductive exn : Type :=
| ValueError (msg : string)
| TimeoutError (msg : string)
| UnboundLocalError (name : string).

Inductive result (A : Type) : Type :=
| Ok (a : A)
| Raise (e : exn).

Arguments Ok {A} a.
Arguments Raise {A} e.

(** [str(n)] and ['%d' % n] for an [int] [n]. *)
Definition str (n : Z) : string := NilZero.string_of_int (Z.to_int n).

Fixpoint char_in (c : ascii) (chars : string) : bool :=
  match chars with
  | EmptyString => false
  | String c' chars' => if Ascii.eqb c c' then true else char_in c chars'
  end.

(** [s.split(sep)] for a one-character separator. *)
Fixpoint split (sep : ascii) (s : string) : list string :=
  match s with
  | EmptyString => [EmptyString]
  | String c rest =>
      if Ascii.eqb c sep then EmptyString :: split sep rest
      else match split sep rest with
           | part :: parts => String c part :: parts
           | [] => [String c EmptyString]
           end
  end.

Fixpoint lstrip (chars s : string) : string :=
  match s with
  | EmptyString => EmptyString
  | String c rest => if char_in c chars then lstrip chars rest else s
  end.

Fixpoint rstrip (chars s : string) : string :=
  match s with
  | EmptyString => EmptyString
  | String c rest =>
      match rstrip chars rest with
      | EmptyString => if char_in c chars then EmptyString else String c EmptyString
      | kept => String c kept
      end
  end.

(** [s.strip(chars)]. *)
Definition strip (chars s : string) : string := rstrip chars (lstrip chars s).

(** The arithmetic the code performs on memory figures. *)
Class PyNumber (M : Type) : Type := {
  py_zero : M;             (* the literal [0] *)
  py_4e9 : M;              (* the literal [4e9] *)
  py_add : M -> M -> M;    (* [x + y] *)
  py_int : M -> Z          (* [int(x)] *)
}.

(** Integral byte counts: [4e9] is the integer 4 000 000 000, and Python's
    addition of integral values is exact on [int]s, and on [float]s below
    2^53. *)
#[global] Instance Z_PyNumber : PyNumber Z :=
  {| py_zero := 0; py_4e9 := 4000000000; py_add := Z.add; py_int := fun z => z |}.

(** [sum(l)]: left to right, from [0]. *)
Definition py_sum {M} `{PyNumber M} (l : list M) : M := fold_left py_add l py_zero.

(** [int(x)] for a finite number [x], an [int] or a [float], taken as the
    rational it denotes: truncation toward zero. *)
Definition int_of_number (x : Q) : Z := Z.quot (Qnum x) (Z.pos (Qden x)).

(** ** Insertion-ordered dictionaries with string keys *)

Section Dict.
Context {V : Type}.

(** [d.get(k)] *)
Fixpoint dict_get (k : string) (d : list (string * V)) : option V :=
  match d with
  | [] => None
  | (k', v) :: d' => if decide (k = k') then Some v else dict_get k d'
  end.

(** [d[k] = v]: an existing key keeps its position, a new one goes last. *)
Fixpoint dict_set (k : string) (v : V) (d : list (string * V)) : list (string * V) :=
  match d with
  | [] => [(k, v)]
  | (k', v') :: d' =>
      if decide (k = k') then (k', v) :: d' else (k', v') :: dict_set k v d'
  end.

(** In-place update of the value stored under [k], as [d[k][field] += x]
    does for a key that is present. *)
Fixpoint dict_alter (f : V -> V) (k : string) (d : list (string * V)) : list (string * V) :=
  match d with
  | [] => []
  | (k', v) :: d' =>
      if decide (k = k') then (k', f v) :: d' else (k', v) :: dict_alter f k d'
  end.

Definition dict_keys (d : list (string * V)) : list string := map fst d.
Definition dict_values (d : list (string * V)) : list V := map snd d.
End Dict.

(** ** Processes *)

(** A spawned subprocess: its command line and whether it still runs. *)
Record process : Type := { argv : list string; alive : bool }.

(** [subprocess.Popen(args)] on the spawn's success path: the new process
    is appended to the process table and its index is the handle. *)
Definition Popen (args : list string) (os : list process) : nat * list process :=
  (length os, os ++ [{| argv := args; alive := true |}]).

(** The Python side of a Dask scheduler or worker: its address, its
    [extensions] dict, the handles its [atexit] hooks terminate, and what
    its logger received. *)
Record server : Type := {
  address : string;
  extensions : gmap string nat;
  atexit : list nat;
  log : list string
}.

(** The [ValueError] of unpacking [n] values into three names. *)
Definition unpack3_error (n : nat) : exn :=
  if (n <? 3)%nat
  then ValueError ("not enough values to unpack (expected 3, got " +:+ str (Z.of_nat n) +:+ ")")
  else ValueError "too many values to unpack (expected 3)".

(** ** RemoteProcessLauncher *)

(** [start_master(dask_scheduler, port)]: the result and the scheduler and
    process table it leaves. Unpacking [address.split(':')] into three
    names raises unless there are exactly three parts. *)
Definition start_master (dask_scheduler : server) (port : Z) (os : list process)
  : result string * server * list process :=
  match split ":" (address dask_scheduler) with
  | [scheme; host; _] =>
      let host := strip ":/" host in
      let '(proc, os) :=
        Popen ["start-master.sh"; "--host"; host; "--port"; str port] os in
      let master := "spark://" +:+ host +:+ ":" +:+ str port in
      (Ok master,
       {| address := address dask_scheduler;
          extensions := <["spark" := proc]> (extensions dask_scheduler);
          atexit := atexit dask_scheduler ++ [proc];
          log := log dask_scheduler ++ ["Start Spark at " +:+ master] |},
       os)
  | parts => (Raise (unpack3_error (length parts)), dask_scheduler, os)
  end.

(** [start_slave(master, cores, memory, dask_worker)]: the result and the
    worker and process table it leaves. *)
Definition start_slave (master : string) (cores : Z) (memory : Q)
    (dask_worker : server) (os : list process)
  : string * server * list process :=
  let '(proc, os) :=
    Popen ["start-slave.sh"; master;
           "--cores"; str cores;
           "--memory"; str (int_of_number memory) +:+ "B"] os in
  ("OK",
   {| address := address dask_worker;
      extensions := <["spark" := proc]> (extensions dask_worker);
      atexit := atexit dask_worker ++ [proc];
      log := log dask_worker ++ ["Start Spark Slave, pointing to " +:+ master] |},
   os).

(** ** HostResourceAggregator *)

(** One value of [cluster_info['workers']]; [memory_limit] is [None] when
    the dict has no ['memory_limit'] key. *)
Record worker_info (M : Type) : Type := {
  host : string;
  ncores : Z;
  memory_limit : option M
}.
Arguments host {M} _.
Arguments ncores {M} _.
Arguments memory_limit {M} _.

(** One value of [hosts]: the dict with keys ['address'], ['cores'] and
    ['memory']. *)
Record host_entry (M : Type) : Type := {
  entry_address : string;
  entry_cores : Z;
  entry_memory : M
}.
Arguments entry_address {M} _.
Arguments entry_cores {M} _.
Arguments entry_memory {M} _.

Section Aggregation.
Context {M : Type} `{PyNumber M}.

(** [info.get('memory_limit', 4e9)] *)
Definition reported_memory (info : worker_info M) : M :=
  match memory_limit info with
  | Some m => m
  | None => py_4e9
  end.

Definition add_cores (n : Z) (e : host_entry M) : host_entry M :=
  {| entry_address := entry_address e;
     entry_cores := entry_cores e + n;
     entry_memory := entry_memory e |}.

Definition add_memory (m : M) (e : host_entry M) : host_entry M :=
  {| entry_address := entry_address e;
     entry_cores := entry_cores e;
     entry_memory := py_add (entry_memory e) m |}.

(** The body of the loop over [cluster_info['workers'].items()]. *)
Definition aggregate_step (hosts : list (string * host_entry M))
    (item : string * worker_info M) : list (string * host_entry M) :=
  let '(addr, info) := item in
  let h := host info in
  let hosts :=
    match dict_get h hosts with
    | None =>
        dict_set h {| entry_address := addr; entry_cores := 0; entry_memory := py_zero |} hosts
    | Some _ => hosts
    end in
  let hosts := dict_alter (add_cores (ncores info)) h hosts in
  let hosts := dict_alter (add_memory (reported_memory info)) h hosts in
  hosts.

Definition aggregate_hosts (workers : list (string * worker_info M))
  : list (string * host_entry M) :=
  fold_left aggregate_step workers [].
End Aggregation.

(** ** ForwardBridge *)

(** A remote procedure call issued through the client. *)
Inductive remote_call : Type :=
| run_on_scheduler_start_master
| run_start_slave (master : string) (cores : Z) (memory : Z) (workers : list string).

(** A worker of the coordinator cluster: what the scheduler's [identity()]
    reports about it, and its Python process. *)
Record dask_worker (M : Type) : Type := {
  info : worker_info M;
  worker_server : server
}.
Arguments info {M} _.
Arguments worker_server {M} _.

(** The client and the cluster it is connected to. *)
Record client (M : Type) : Type := {
  scheduler : server;
  workers : list (string * dask_worker M);
  processes : list process;
  calls : list remote_call
}.
Arguments scheduler {M} _.
Arguments workers {M} _.
Arguments processes {M} _.
Arguments calls {M} _.

Inductive SparkContext : Type := SparkContext_at (master : string).

Section Forward.
Context {M : Type} `{PyNumber M}.

(** [client.scheduler.identity()['workers']] *)
Definition identity_workers (c : client M) : list (string * worker_info M) :=
  map (fun aw => (fst aw, info (snd aw))) (workers c).

(** [client._run_on_scheduler(start_master)]: [port] takes its default,
    7077. *)
Definition _run_on_scheduler_start_master (c : client M) : result string * client M :=
  let '(r, sched, os) := start_master (scheduler c) 7077 (processes c) in
  (r, {| scheduler := sched; workers := workers c; processes := os;
         calls := calls c ++ [run_on_scheduler_start_master] |}).

(** [start_slave] run on the worker at [addr]. A call addressed to no
    worker of the cluster reaches no process; the bridge only passes
    addresses of the cluster's own workers. *)
Definition start_slave_on (master : string) (cores memory : Z)
    (c : client M) (addr : string) : client M :=
  match dict_get addr (workers c) with
  | Some w =>
      let '(_, srv, os) :=
        start_slave master cores (inject_Z memory) (worker_server w) (processes c) in
      {| scheduler := scheduler c;
         workers := dict_set addr {| info := info w; worker_server := srv |} (workers c);
         processes := os;
         calls := calls c |}
  | None => c
  end.

(** [client._run(start_slave, master, cores=.., memory=.., workers=ws)] *)
Definition _run_start_slave (master : string) (cores memory : Z)
    (ws : list string) (c : client M) : client M :=
  let c := {| scheduler := scheduler c; workers := workers c; processes := processes c;
              calls := calls c ++ [run_start_slave master cores memory ws] |} in
  fold_left (start_slave_on master cores memory) ws c.

(** [_dask_to_spark(client)]. An exception raised by [start_master] on the
    scheduler is raised again by the [yield], so the function ends there.
    The list of [client._run] calls is issued in full, in the order of
    [hosts.values()], before the [yield] waits for the results. *)
Definition _dask_to_spark (c : client M) : result SparkContext * client M :=
  let cluster_info := identity_workers c in
  let hosts := aggregate_hosts cluster_info in
  match hosts with
  | [] => (Raise (ValueError "No workers found"), c)
  | _ :: _ =>
      match _run_on_scheduler_start_master c with
      | (Raise e, c) => (Raise e, c)
      | (Ok master, c) =>
          let c :=
            fold_left
              (fun c h =>
                 _run_start_slave master (entry_cores h) (py_int (entry_memory h))
                   [entry_address h] c)
              (dict_values hosts) c in
          (Ok (SparkContext_at master), c)
      end
  end.
End Forward.

(** ** ReverseBridge *)

(** The state of one execution slot, a Python process of the Spark
    executor: [distributed.global_worker] ([None] when it is unset or
    [False]), the [Worker]s started there with the scheduler address each
    was given, and the standard output. *)
Record slot : Type := {
  global_worker : option nat;
  started : list string;
  stdout : list string
}.

(** Where a call of [start_worker] stands: blocked in [loop.run_sync]
    waiting for its worker [w], or returned. *)
Inductive frame : Type :=
| Waiting (w : nat)
| Returned (value : list string).

(** [start_worker] up to its first evaluation of [w.status]. *)
Definition start_worker_enter (address : string) (s : slot) : frame * slot :=
  match global_worker s with
  | Some _ => (Returned ["already occupied"], s)
  | None =>
      let w := length (started s) in
      (Waiting w,
       {| global_worker := Some w;
          started := started s ++ [address];
          stdout := stdout s ++ ["Started worker"] |})
  end.

(** One evaluation of [while w.status != 'closed'], [status] being the
    value read, and what follows it: [gen.sleep(0.1)], or the rest of
    [start_worker]. *)
Definition start_worker_poll (status : string) (st : frame * slot) : frame * slot :=
  match st with
  | (Waiting w, s) =>
      if decide (status = "closed")
      then (Returned ["completed"],
            {| global_worker := None; started := started s; stdout := stdout s |})
      else (Waiting w, s)
  | (Returned v, s) => (Returned v, s)
  end.

(** [start_worker(address)] in slot [s], the successive reads of
    [w.status] giving [statuses]. *)
Definition start_worker (address : string) (statuses : list string) (s : slot)
  : frame * slot :=
  fold_left (fun st status => start_worker_poll status st) statuses
    (start_worker_enter address s).

(** What [spark_to_dask] does, in order. *)
Inductive event : Type :=
| new_LocalCluster
| sc_parallelize
| thread_start
| read_workers (i : Z)
| print (line : string)
| logger_info (line : string)
| sleep_10ms.

(** [range(a, b)] *)
Definition range (a b : Z) : list Z :=
  map (fun k => a + Z.of_nat k) (seq 0 (Z.to_nat (b - a))).

(** The [for i in ...] loop of [spark_to_dask]: [registry i] is the content
    of [cluster.scheduler.workers] when iteration [i] reads it. The result
    is the last value bound to [i] and the events so far. *)
Fixpoint poll_workers (registry : Z -> list string) (iterations : list Z)
    (last : option Z) (out : list event) : option Z * list event :=
  match iterations with
  | [] => (last, out)
  | i :: iterations' =>
      let out := out ++ [read_workers i] in
      match registry i with
      | _ :: _ => (Some i, out)
      | [] =>
          let out :=
            if i mod 100 =? 0
            then out ++ [print "Waiting for workers"; logger_info "Waiting for workers"]
            else out in
          let out := out ++ [sleep_10ms; logger_info (str i)] in
          poll_workers registry iterations' (Some i) out
      end
  end.

Inductive Client : Type := Client_of_LocalCluster.

(** What [spark_to_dask] does before its loop: it creates the cluster and
    the RDD, and starts the thread that runs [start_worker] in the slots. *)
Definition prelude : list event := [new_LocalCluster; sc_parallelize; thread_start].

(** [spark_to_dask(sc)], for the registry contents [registry] that its
    loop reads. *)
Definition spark_to_dask (registry : Z -> list string) : result Client * list event :=
  let '(i, out) := poll_workers registry (range 1 1000) None prelude in
  match i with
  | None => (Raise (UnboundLocalError "i"), out)
  | Some i =>
      if i =? 999
      then (Raise (TimeoutError "No workers arrived"), out)
      else (Ok Client_of_LocalCluster, out)
  end.

(** The iterations of the loop that read the registry. *)
Definition polled (out : list event) : list Z :=
  flat_map (fun e => match e with read_workers i => [i] | _ => [] end) out.

(** ** Vocabulary of the statements *)

(** The workers of a snapshot that run on host [h], in snapshot order. *)
Definition workers_on {M} (h : string) (ws : list (string * worker_info M))
  : list (string * worker_info M) :=
  filter (fun aw => host (snd aw) = h) ws.

(** The sum of a list of integers. *)
Definition Zsum (l : list Z) : Z := foldr Z.add 0 l.

(** An entry after the loop body has run for each worker of [l]. *)
Definition absorb {M} `{PyNumber M} (e : host_entry M) (l : list (string * worker_info M))
  : host_entry M :=
  {| entry_address := entry_address e;
     entry_cores := fold_left Z.add (map (fun aw => ncores (snd aw)) l) (entry_cores e);
     entry_memory :=
       fold_left py_add (map (fun aw => reported_memory (snd aw)) l) (entry_memory e) |}.

(** The scenario of the specification: two workers on host [A], the second
    without a memory figure, and one on host [B]. *)
Definition scenario : list (string * worker_info Z) :=
  [("w1", {| host := "A"; ncores := 4; memory_limit := Some 8000000000 |});
   ("w2", {| host := "A"; ncores := 2; memory_limit := None |});
   ("w3", {| host := "B"; ncores := 8; memory_limit := Some 16000000000 |})].

(** The [start_slave] call the forward bridge issues for one entry of
    [hosts]. *)
Definition launch_slave_call {M} `{PyNumber M} (master : string) (e : host_entry M)
  : remote_call :=
  run_start_slave master (entry_cores e) (py_int (entry_memory e)) [entry_address e].

Definition is_start_master (call : remote_call) : bool :=
  match call with run_on_scheduler_start_master => true | _ => false end.

Definition is_start_slave (call : remote_call) : bool :=
  match call with run_start_slave _ _ _ _ => true | _ => false end.

(** The hosts of a cluster's workers, each once. *)
Definition distinct_hosts {M} (c : client M) : list string :=
  remove_dups (map (fun aw => host (info (snd aw))) (workers c)).

(** "One [start_master] call and one [start_slave] call per distinct
    host", for a run of the forward bridge from a client with an empty
    call log. *)
Definition launches_once_per_host {M} `{PyNumber M} (c : client M) : Prop :=
  let issued := calls (snd (_dask_to_spark c)) in
  length (List.filter is_start_master issued) = 1%nat /\
  length (List.filter is_start_slave issued) = length (distinct_hosts c).

(** A server that has just started. *)
Definition fresh_server (addr : string) : server :=
  {| address := addr; extensions := ∅; atexit := []; log := [] |}.

(** A cluster with the given scheduler address and workers, nothing
    launched and no call issued yet. *)
Definition fresh_client {M} (sched : string) (ws : list (string * worker_info M)) : client M :=
  {| scheduler := fresh_server sched;
     workers := map (fun aw => (fst aw, {| info := snd aw; worker_server := fresh_server (fst aw) |})) ws;
     processes := [];
     calls := [] |}.

(** A registry that is empty until a worker registers just before the last
    iteration of the polling loop reads it. *)
Definition late_registry (i : Z) : list string :=
  if i =? 999 then ["tcp://10.0.0.2:40000"] else [].

(** ** The rest of the module, and the vocabulary of its properties *)

(** [dask_to_spark(client)]: [sync] runs the coroutine [_dask_to_spark] on
    the client's loop and hands back its result, or raises what it
    raised. *)
Definition dask_to_spark {M} `{PyNumber M} (c : client M) : result SparkContext * client M :=
  _dask_to_spark c.

(** [proc.terminate()]: the process is told to stop, and no longer runs;
    on a process that has stopped it does nothing. *)
Definition terminate (proc : nat) (os : list process) : list process :=
  alter (fun p => {| argv := argv p; alive := false |}) proc os.

(** The exit of a server's Python process: the hooks registered with
    [atexit.register], [remove_spark_master] and [remove_spark_slave], run
    last registered first. *)
Definition run_atexit (s : server) (os : list process) : list process :=
  fold_left (fun os proc => terminate proc os) (rev (atexit s)) os.

(** Successive [start_master] calls on one scheduler, one per port. *)
Definition start_masters (ports : list Z) (st : server * list process) : server * list process :=
  fold_left (fun st port => let '(_, s, os) := start_master (fst st) port (snd st) in (s, os))
            ports st.

(** The number of occurrences of a character in a string. *)
Fixpoint count_char (c : ascii) (s : string) : nat :=
  match s with
  | EmptyString => 0
  | String c' s' => (if Ascii.eqb c' c then 1 else 0) + count_char c s'
  end.

(** What one iteration of the loop of [spark_to_dask] does when it finds
    the registry empty. *)
Definition idle_iteration (i : Z) : list event :=
  [read_workers i] ++
  (if i mod 100 =? 0
   then [print "Waiting for workers"; logger_info "Waiting for workers"]
   else []) ++
  [sleep_10ms; logger_info (str i)].

(** The number of [sleep(0.01)] calls, and of lines printed, in a run. *)
Definition sleeps (out : list event) : nat :=
  length (List.filter (fun e => match e with sleep_10ms => true | _ => false end) out).

Definition printed (out : list event) : nat :=
  length (List.filter (fun e => match e with print _ => true | _ => false end) out).

(** The elements of a list in the order of their first occurrence. *)
Fixpoint first_occurrences (l : list string) : list string :=
  match l with
  | [] => []
  | h :: l' => h :: filter (fun h' => h' <> h) (first_occurrences l')
  end.

(** The command line of the slave the forward bridge launches for one
    entry of [hosts]. *)
Definition slave_argv {M} `{PyNumber M} (master : string) (e : host_entry M) : list string :=
  ["start-slave.sh"; master; "--cores"; str (entry_cores e);
   "--memory"; str (py_int (entry_memory e)) +:+ "B"].

(** The slave the forward bridge launches for one entry, as a process. *)
Definition slave_process {M} `{PyNumber M} (master : string) (e : host_entry M) : process :=
  {| argv := slave_argv master e; alive := true |}.

(** The [start_slave] calls of the forward bridge, for the entries of
    [hosts] in order. *)
Definition launch_slaves {M} `{PyNumber M} (master : string) (entries : list (host_entry M))
    (c : client M) : client M :=
  fold_left
    (fun c2 h =>
       _run_start_slave master (entry_cores h) (py_int (entry_memory h)) [entry_address h] c2)
    entries c.

(** Successive complete calls of [start_worker] in one slot, each with the
    address it is given and the statuses it reads. *)
Definition start_workers (runs : list (string * list string)) (s : slot)
  : list frame * slot :=
  fold_left
    (fun acc run =>
       let '(f, s') := start_worker (fst run) (snd run) (snd acc) in
       (fst acc ++ [f], s'))
    runs ([], s).

(** * Properties *)

(** ** Sanity checks *)

Example split_tcp : split ":" "tcp://10.0.0.1:8786" = ["tcp"; "//10.0.0.1"; "8786"].
Proof. reflexivity. Qed.

Example strip_host : strip ":/" "//10.0.0.1" = "10.0.0.1".
Proof. reflexivity. Qed.

Example str_examples : str 7077 = "7077" /\ str 0 = "0" /\ str (-12) = "-12".
Proof. repeat split; reflexivity. Qed.

Example int_of_number_examples :
  int_of_number (7 # 2) = 3 /\ int_of_number (-7 # 2) = -3 /\ int_of_number (inject_Z 12) = 12.
Proof. repeat split; reflexivity. Qed.

(** ** Dictionaries *)

Section DictFacts.
Context {V : Type}.
Implicit Types (d : list (string * V)) (k : string) (v : V).

Lemma dict_get_set k k' v d :
  dict_get k' (dict_set k v d) = if decide (k = k') then Some v else dict_get k' d.
Proof.
  induction d as [|[k0 v0] d IH]; simpl.
  - destruct (decide (k = k')), (decide (k' = k)); congruence.
  - destruct (decide (k = k0)) as [->|Hk0]; simpl.
    + destruct (decide (k' = k0)), (decide (k0 = k')); congruence.
    + rewrite IH. destruct (decide (k' = k0)), (decide (k = k')); congruence.
Qed.

Lemma dict_get_alter (f : V -> V) k k' d :
  dict_get k' (dict_alter f k d) =
  if decide (k = k') then f <$> dict_get k' d else dict_get k' d.
Proof.
  induction d as [|[k0 v0] d IH]; simpl.
  - by destruct (decide (k = k')).
  - destruct (decide (k = k0)) as [->|Hk0]; simpl.
    + destruct (decide (k' = k0)), (decide (k0 = k')); simpl; congruence.
    + rewrite IH. destruct (decide (k' = k0)), (decide (k = k')); simpl; congruence.
Qed.

Lemma dict_get_None k d : dict_get k d = None <-> ~ In k (dict_keys d).
Proof.
  induction d as [|[k0 v0] d IH]; simpl; [tauto|].
  destruct (decide (k = k0)) as [->|Hne].
  - split; [discriminate | intros Hn; destruct Hn; by left].
  - rewrite IH. split; [intros Hn [?|?]; congruence | tauto].
Qed.

Lemma dict_get_Some_In k d : is_Some (dict_get k d) <-> In k (dict_keys d).
Proof.
  rewrite <- not_eq_None_Some, dict_get_None.
  destruct (In_dec string_dec k (dict_keys d)); tauto.
Qed.

Lemma dict_keys_alter (f : V -> V) k d : dict_keys (dict_alter f k d) = dict_keys d.
Proof.
  induction d as [|[k0 v0] d IH]; simpl; [done|].
  destruct (decide (k = k0)); simpl; [done|]. by f_equal.
Qed.

Lemma dict_keys_set_new k v d :
  dict_get k d = None -> dict_keys (dict_set k v d) = dict_keys d ++ [k].
Proof.
  induction d as [|[k0 v0] d IH]; simpl; [done|].
  destruct (decide (k = k0)); [done|]. intros Hd. simpl. f_equal. by apply IH.
Qed.

Lemma dict_keys_set_present k v d :
In k (dict_keys d) -> dict_keys (dict_set k v d) = dict_keys d.
Proof.
induction d as [|[k0 v0] d IH]; simpl; [done|].
destruct (decide (k = k0)) as [->|Hne]; [done|].
intros [?|Hin]; [congruence|]. simpl. f_equal. by apply IH.
Qed.

Lemma dict_values_length d : length (dict_values d) = length (dict_keys d).
Proof. unfold dict_values, dict_keys. by rewrite !length_map. Qed.
End DictFacts.

(** ** HostResourceAggregator *)

Lemma fold_left_Zadd (l : list Z) (a : Z) : fold_left Z.add l a = a + Zsum l.
Proof.
  revert a. induction l as [|x l IH]; intros a; simpl; [lia|]. rewrite IH. lia.
Qed.

Lemma py_sum_Z (l : list Z) : py_sum l = Zsum l.
Proof. unfold py_sum. simpl. by rewrite fold_left_Zadd. Qed.

Section AggregationFacts.
Context {M : Type} `{PyNumber M}.
Implicit Types (ws : list (string * worker_info M)) (hosts : list (string * host_entry M)).

Lemma aggregate_step_get hosts a i h :
  dict_get h (aggregate_step hosts (a, i)) =
  if decide (host i = h)
  then Some (absorb
               (default {| entry_address := a; entry_cores := 0; entry_memory := py_zero |}
                        (dict_get h hosts))
               [(a, i)])
  else dict_get h hosts.
Proof.
  unfold aggregate_step. rewrite !dict_get_alter.
  destruct (decide (host i = h)) as [<-|Hne].
  - destruct (dict_get (host i) hosts) as [e|] eqn:He; simpl.
    + by rewrite He.
    + rewrite dict_get_set. by destruct (decide (host i = host i)).
  - destruct (dict_get (host i) hosts); [done|].
    rewrite dict_get_set. by destruct (decide (host i = h)).
Qed.

Lemma aggregate_step_keys hosts a i :
  dict_keys (aggregate_step hosts (a, i)) =
  match dict_get (host i) hosts with
  | Some _ => dict_keys hosts
  | None => dict_keys hosts ++ [host i]
  end.
Proof.
  unfold aggregate_step. rewrite !dict_keys_alter.
  destruct (dict_get (host i) hosts) eqn:He; [done|]. by apply dict_keys_set_new.
Qed.

Lemma absorb_app e l1 l2 : absorb e (l1 ++ l2) = absorb (absorb e l1) l2.
Proof. unfold absorb. simpl. by rewrite !map_app, !fold_left_app. Qed.

(** The entry of [h] after the loop, from any starting dictionary. *)
Lemma fold_aggregate_get ws hosts h :
  dict_get h (fold_left aggregate_step ws hosts) =
  match dict_get h hosts with
  | Some e => Some (absorb e (workers_on h ws))
  | None =>
      match workers_on h ws with
      | [] => None
      | (a, i) :: rest =>
          Some (absorb {| entry_address := a; entry_cores := 0; entry_memory := py_zero |}
                       ((a, i) :: rest))
      end
  end.
Proof.
  revert hosts. induction ws as [|[a i] ws IH]; intros hosts; cbn [fold_left].
  - unfold workers_on. simpl. destruct (dict_get h hosts) as [[]|]; done.
  - rewrite IH, aggregate_step_get. unfold workers_on.
    destruct (decide (host i = h)) as [Hh|Hh].
    + rewrite filter_cons_True by done.
      destruct (dict_get h hosts) as [e|]; reflexivity.
    + by rewrite filter_cons_False by done.
Qed.

(** The entry of each host in the aggregation output. *)
Lemma aggregate_hosts_get ws h :
  dict_get h (aggregate_hosts ws) =
  match workers_on h ws with
  | [] => None
  | (a, i) :: rest =>
      Some {| entry_address := a;
              entry_cores := Zsum (map (fun aw => ncores (snd aw)) ((a, i) :: rest));
              entry_memory := py_sum (map (fun aw => reported_memory (snd aw)) ((a, i) :: rest)) |}
  end.
Proof.
  unfold aggregate_hosts. rewrite fold_aggregate_get. simpl.
  destruct (workers_on h ws) as [|[a i] rest]; [done|].
  unfold absorb, py_sum. cbn [entry_cores entry_address entry_memory]. by rewrite fold_left_Zadd.
Qed.

Lemma workers_on_nil ws h :
  workers_on h ws = [] <-> ~ In h (map (fun aw => host (snd aw)) ws).
Proof.
  unfold workers_on. induction ws as [|[a i] ws IH]; simpl; [tauto|].
  destruct (decide (host i = h)) as [Hh|Hh].
  - rewrite filter_cons_True by done. split; [discriminate | tauto].
  - rewrite filter_cons_False by done. rewrite IH. tauto.
Qed.

(** The first worker of a host: the head of [workers_on]. *)
Lemma workers_on_head ws h a i rest :
  workers_on h ws = (a, i) :: rest ->
  exists before after,
    ws = before ++ (a, i) :: after /\ host i = h /\
    Forall (fun aw => host (snd aw) <> h) before /\ rest = workers_on h after.
Proof.
  unfold workers_on. induction ws as [|[a0 i0] ws IH]; simpl; [done|].
  destruct (decide (host i0 = h)) as [Hh|Hh].
  - rewrite filter_cons_True by done. intros [= -> -> <-].
    exists [], ws. by repeat split.
  - rewrite filter_cons_False by done. intros Hw.
    destruct (IH Hw) as (before & after & -> & ? & ? & ?).
    exists ((a0, i0) :: before), after. repeat split; auto.
Qed.

Lemma workers_on_app ws ws' h : workers_on h (ws ++ ws') = workers_on h ws ++ workers_on h ws'.
Proof. unfold workers_on. apply filter_app. Qed.

(** The hosts of the output, in order: each host of the snapshot once. *)
Lemma fold_aggregate_keys ws hosts :
  NoDup (dict_keys hosts) ->
  NoDup (dict_keys (fold_left aggregate_step ws hosts)) /\
  forall h, In h (dict_keys (fold_left aggregate_step ws hosts)) <->
            In h (dict_keys hosts) \/ In h (map (fun aw => host (snd aw)) ws).
Proof.
  revert hosts. induction ws as [|[a i] ws IH]; intros hosts Hnd; cbn [fold_left map].
  - split; [done | simpl; tauto].
  - assert (Hstep : NoDup (dict_keys (aggregate_step hosts (a, i))) /\
                    forall h, In h (dict_keys (aggregate_step hosts (a, i))) <->
                              In h (dict_keys hosts) \/ host i = h).
    { rewrite aggregate_step_keys.
      destruct (dict_get (host i) hosts) as [e|] eqn:He.
      - split; [done|]. intros h. split; [tauto|]. intros [?| <-]; [done|].
        apply dict_get_Some_In. by rewrite He.
      - apply dict_get_None in He. split.
        + apply NoDup_app. repeat split; [done| |apply NoDup_singleton].
          intros x Hx Hx'. apply list_elem_of_In in Hx.
          apply list_elem_of_singleton in Hx'. by subst.
        + intros h. rewrite in_app_iff. simpl. tauto. }
    destruct Hstep as [Hnd' Hin']. destruct (IH _ Hnd') as [Hnd'' Hin''].
    split; [done|]. intros h. rewrite Hin'', Hin'. simpl. tauto.
Qed.

Lemma aggregate_hosts_keys ws :
  NoDup (dict_keys (aggregate_hosts ws)) /\
  forall h, In h (dict_keys (aggregate_hosts ws)) <->
            In h (map (fun aw => host (snd aw)) ws).
Proof.
  destruct (fold_aggregate_keys ws [] (NoDup_nil_2 (A:=string))) as [Hnd Hin].
  split; [done|]. intros h. unfold aggregate_hosts. rewrite Hin. simpl. tauto.
Qed.

Lemma aggregate_hosts_nil ws : aggregate_hosts ws = [] <-> ws = [].
Proof.
  split; [|by intros ->].
  destruct ws as [|[a i] ws]; [done|]. intros Hagg.
  destruct (aggregate_hosts_keys ((a, i) :: ws)) as [_ Hin].
  rewrite Hagg in Hin. destruct (proj2 (Hin (host i))). by left.
Qed.
End AggregationFacts.

(** C2: for each host of a snapshot the aggregation holds one entry, whose
    cores are the sum of [ncores] over the workers on that host and whose
    memory is the sum over the same workers of [memory_limit], or of [4e9]
    where a worker reports none; the hosts of the output are the hosts of
    the snapshot, each once. On the scenario of the specification the
    output is [{A: cores 6, memory 12e9; B: cores 8, memory 16e9}]. *)
Theorem aggregate_hosts_totals :
  (forall (M : Type) (N : PyNumber M) (ws : list (string * worker_info M))
          (a : string) (i : worker_info M),
      In (a, i) ws ->
      exists e,
        dict_get (host i) (aggregate_hosts ws) = Some e /\
        entry_cores e = Zsum (map (fun aw => ncores (snd aw)) (workers_on (host i) ws)) /\
        entry_memory e =
          py_sum (map (fun aw => reported_memory (snd aw)) (workers_on (host i) ws)) /\
        NoDup (dict_keys (aggregate_hosts ws)) /\
        forall h, In h (dict_keys (aggregate_hosts ws)) <->
                  In h (map (fun aw => host (snd aw)) ws)) /\
  aggregate_hosts scenario =
    [("A", {| entry_address := "w1"; entry_cores := 6; entry_memory := 12000000000 |});
     ("B", {| entry_address := "w3"; entry_cores := 8; entry_memory := 16000000000 |})].
Proof.
  split; [|reflexivity].
  intros M N ws a i Hin.
  rewrite aggregate_hosts_get.
  destruct (workers_on (host i) ws) as [|[a0 i0] rest] eqn:Hon.
  - apply workers_on_nil in Hon. destruct Hon.
    apply in_map_iff. by exists (a, i).
  - eexists. split; [reflexivity|]. cbn [entry_cores entry_memory].
    repeat split; try apply aggregate_hosts_keys.
Qed.

Lemma aggregate_hosts_totals_witness :
  In ("w2", {| host := "A"; ncores := 2; memory_limit := None |}) scenario /\
  exists e,
    dict_get "A" (aggregate_hosts scenario) = Some e /\
    entry_cores e = Zsum (map (fun aw => ncores (snd aw)) (workers_on "A" scenario)) /\
    entry_memory e = py_sum (map (fun aw => reported_memory (snd aw)) (workers_on "A" scenario)) /\
    NoDup (dict_keys (aggregate_hosts scenario)) /\
    forall h, In h (dict_keys (aggregate_hosts scenario)) <->
              In h (map (fun aw => host (snd aw)) scenario).
Proof.
  assert (Hin : In ("w2", {| host := "A"; ncores := 2; memory_limit := None |}) scenario)
    by (simpl; auto).
  split; [exact Hin|].
  exact (proj1 aggregate_hosts_totals Z _ scenario "w2" _ Hin).
Defined.

(** C8: the address recorded for a host of the output is the address of
    the first worker of the snapshot, in iteration order, that runs on
    that host; workers that come later leave it unchanged. *)
Theorem representative_is_first_worker :
  forall (M : Type) (N : PyNumber M) (ws : list (string * worker_info M))
         (h : string) (e : host_entry M),
    dict_get h (aggregate_hosts ws) = Some e ->
    (exists before i after,
        ws = before ++ (entry_address e, i) :: after /\
        host i = h /\
        Forall (fun aw => host (snd aw) <> h) before) /\
    (forall later,
        exists e', dict_get h (aggregate_hosts (ws ++ later)) = Some e' /\
                   entry_address e' = entry_address e).
Proof.
  intros M N ws h e. rewrite aggregate_hosts_get.
  destruct (workers_on h ws) as [|[a i] rest] eqn:Hon; [done|].
  intros [= <-]. cbn [entry_address]. split.
  - destruct (workers_on_head _ _ _ _ _ Hon) as (before & after & -> & Hh & Hbefore & _).
    by exists before, i, after.
  - intros later. rewrite aggregate_hosts_get, workers_on_app, Hon. simpl.
    eexists. split; reflexivity.
Qed.

Lemma representative_is_first_worker_witness :
  (exists before i after,
      scenario = before ++ ("w1", i) :: after /\
      host i = "A" /\
      Forall (fun aw => host (snd aw) <> "A") before) /\
  (forall later,
      exists e', dict_get "A" (aggregate_hosts (scenario ++ later)) = Some e' /\
                 entry_address e' = "w1").
Proof.
  exact (representative_is_first_worker Z _ scenario "A"
           {| entry_address := "w1"; entry_cores := 6; entry_memory := 12000000000 |}
           eq_refl).
Defined.

(** ** ForwardBridge *)

Section ForwardFacts.
Context {M : Type} `{PyNumber M}.
Implicit Types (c : client M).

Lemma identity_workers_nil c : identity_workers c = [] <-> workers c = [].
Proof. unfold identity_workers. by destruct (workers c). Qed.

Lemma identity_workers_hosts c :
  map (fun aw => host (snd aw)) (identity_workers c) =
  map (fun aw => host (info (snd aw))) (workers c).
Proof. unfold identity_workers. rewrite map_map. done. Qed.

Lemma start_slave_on_calls master cores memory c addr :
  calls (start_slave_on master cores memory c addr) = calls c.
Proof. unfold start_slave_on. by destruct (dict_get addr (workers c)). Qed.

Lemma start_slaves_on_calls master cores memory ws c :
  calls (fold_left (start_slave_on master cores memory) ws c) = calls c.
Proof.
  revert c. induction ws as [|addr ws IH]; intros c; simpl; [done|].
  by rewrite IH, start_slave_on_calls.
Qed.

Lemma _run_start_slave_calls master cores memory ws c :
  calls (_run_start_slave master cores memory ws c) =
  calls c ++ [run_start_slave master cores memory ws].
Proof. unfold _run_start_slave. by rewrite start_slaves_on_calls. Qed.

Lemma launch_slaves_calls master (entries : list (host_entry M)) c :
  calls (fold_left
           (fun c h =>
              _run_start_slave master (entry_cores h) (py_int (entry_memory h))
                [entry_address h] c)
           entries c) =
  calls c ++ map (launch_slave_call master) entries.
Proof.
  revert c. induction entries as [|e entries IH]; intros c; cbn [fold_left map].
  - by rewrite app_nil_r.
  - rewrite IH, _run_start_slave_calls. by rewrite <- app_assoc.
Qed.

Lemma _run_on_scheduler_start_master_calls c :
  calls (snd (_run_on_scheduler_start_master c)) =
  calls c ++ [run_on_scheduler_start_master].
Proof.
  unfold _run_on_scheduler_start_master.
  by destruct (start_master (scheduler c) 7077 (processes c)) as [[r s] os].
Qed.

Lemma distinct_hosts_length c :
  length (aggregate_hosts (identity_workers c)) = length (distinct_hosts c).
Proof.
  destruct (aggregate_hosts_keys (identity_workers c)) as [Hnd Hin].
  rewrite <- (length_map fst). apply Permutation_length.
  apply NoDup_Permutation; [done | apply NoDup_remove_dups |].
  intros h. unfold distinct_hosts.
  rewrite elem_of_remove_dups, !list_elem_of_In, <- identity_workers_hosts. apply Hin.
Qed.
End ForwardFacts.

(** Every call the bridge addresses to a worker finds that worker: a run
    that returns has spawned one master process and one slave process per
    distinct host. *)

Section ForwardProcesses.
Context {M : Type} `{PyNumber M}.
Implicit Types (c : client M).

Lemma aggregate_step_addresses (all : list string)
  (hosts : list (string * host_entry M)) (a : string) (i : worker_info M) :
In a all ->
Forall (fun e => In (entry_address e) all) (dict_values hosts) ->
Forall (fun e => In (entry_address e) all) (dict_values (aggregate_step hosts (a, i))).
Proof.
intros Ha Hall. unfold aggregate_step.
assert (Halter : forall (f : host_entry M -> host_entry M) k d,
           (forall e, entry_address (f e) = entry_address e) ->
           Forall (fun e => In (entry_address e) all) (dict_values d) ->
           Forall (fun e => In (entry_address e) all) (dict_values (dict_alter f k d))).
{ intros f k d Hf. induction d as [|[k0 e0] d IH]; simpl; [done|].
  intros Hd. inversion Hd as [|? ? He0 Hd']; subst.
  destruct (decide (k = k0)); simpl; constructor; auto. by rewrite Hf. }
apply Halter; [done|]. apply Halter; [done|].
destruct (dict_get (host i) hosts); [done|].
clear Halter. induction hosts as [|[k0 e0] hosts IH]; simpl.
- by repeat constructor.
- inversion Hall as [|? ? He0 Hall']; subst.
  destruct (decide (host i = k0)); simpl; constructor; auto.
Qed.

Lemma aggregate_hosts_addresses (ws : list (string * worker_info M)) :
Forall (fun e => In (entry_address e) (map fst ws)) (dict_values (aggregate_hosts ws)).
Proof.
unfold aggregate_hosts.
assert (Hfold : forall all l hosts,
           (forall aw, In aw l -> In (fst aw) all) ->
           Forall (fun e => In (entry_address e) all) (dict_values hosts) ->
           Forall (fun e => In (entry_address e) all)
                  (dict_values (fold_left aggregate_step l hosts))).
{ intros all l. induction l as [|[a i] l IH]; intros hosts Hl Hhosts; cbn [fold_left]; [done|].
  apply IH; [intros aw Haw; apply Hl; by right|].
  apply aggregate_step_addresses; [|done]. apply (Hl (a, i)). by left. }
apply Hfold; [|constructor]. intros aw Haw. by apply in_map.
Qed.

Lemma start_slave_on_found master cores memory c addr :
In addr (dict_keys (workers c)) ->
dict_keys (workers (start_slave_on master cores memory c addr)) = dict_keys (workers c) /\
length (processes (start_slave_on master cores memory c addr)) = S (length (processes c)).
Proof.
intros Hin. unfold start_slave_on.
destruct (dict_get addr (workers c)) as [w|] eqn:Hw.
- unfold start_slave, Popen. cbn [workers processes].
  split; [by apply dict_keys_set_present|].
  rewrite length_app. simpl. lia.
- apply dict_get_None in Hw. done.
Qed.

Lemma launch_slaves_processes master (entries : list (host_entry M)) c :
Forall (fun e => In (entry_address e) (dict_keys (workers c))) entries ->
length (processes
          (fold_left
             (fun c h =>
                _run_start_slave master (entry_cores h) (py_int (entry_memory h))
                  [entry_address h] c)
             entries c)) =
(length (processes c) + length entries)%nat.
Proof.
revert c. induction entries as [|e entries IH]; intros c Hall; cbn [fold_left].
- simpl. lia.
- inversion Hall as [|? ? He Hall']; subst.
  unfold _run_start_slave at 2. cbn [fold_left].
  match goal with
  | |- context [start_slave_on ?m ?co ?me ?c0 ?a] =>
      destruct (start_slave_on_found m co me c0 a He) as [Hkeys Hlen]
  end.
  rewrite IH; [rewrite Hlen; simpl; lia|].
  rewrite Hkeys. exact Hall'.
Qed.

Lemma _dask_to_spark_launch c :
aggregate_hosts (identity_workers c) <> [] ->
_dask_to_spark c =
match _run_on_scheduler_start_master c with
| (Raise e, c1) => (Raise e, c1)
| (Ok master, c1) =>
    (Ok (SparkContext_at master),
     fold_left
       (fun c2 h =>
          _run_start_slave master (entry_cores h) (py_int (entry_memory h))
            [entry_address h] c2)
       (dict_values (aggregate_hosts (identity_workers c))) c1)
end.
Proof.
intros Hne. unfold _dask_to_spark at 1.
destruct (aggregate_hosts (identity_workers c)) as [|e0 hosts] eqn:Hhosts; [done|].
unfold _run_on_scheduler_start_master.
by destruct (start_master (scheduler c) 7077 (processes c)) as [[[master|e] sched] os].
Qed.

Lemma forward_bridge_processes c sc c' :
_dask_to_spark c = (Ok sc, c') ->
length (processes c') = (length (processes c) + 1 + length (distinct_hosts c))%nat.
Proof.
intros Hrun.
assert (Hne : aggregate_hosts (identity_workers c) <> []).
{ intros Hnil. unfold _dask_to_spark in Hrun. by rewrite Hnil in Hrun. }
rewrite (_dask_to_spark_launch c Hne) in Hrun.
pose proof (aggregate_hosts_addresses (identity_workers c)) as Haddr.
replace (map fst (identity_workers c)) with (dict_keys (workers c)) in Haddr
  by (unfold identity_workers, dict_keys; by rewrite map_map).
revert Hrun. unfold _run_on_scheduler_start_master, start_master.
destruct (split ":" (address (scheduler c))) as [|scheme [|h [|p [|more parts]]]];
  try discriminate.
unfold Popen. intros Hrun. injection Hrun as _ <-.
rewrite launch_slaves_processes by exact Haddr.
cbn [processes]. rewrite length_app, <- distinct_hosts_length.
unfold dict_values. rewrite length_map. simpl. lia.
Qed.
End ForwardProcesses.

(** The scenario of the specification, run to the end: the command lines
    of the processes spawned. *)
Example forward_bridge_scenario :
  map argv (processes (snd (_dask_to_spark (fresh_client "tcp://10.0.0.1:8786" scenario)))) =
  [["start-master.sh"; "--host"; "10.0.0.1"; "--port"; "7077"];
   ["start-slave.sh"; "spark://10.0.0.1:7077"; "--cores"; "6"; "--memory"; "12000000000B"];
   ["start-slave.sh"; "spark://10.0.0.1:7077"; "--cores"; "8"; "--memory"; "16000000000B"]].
Proof. vm_compute. reflexivity. Qed.

(** C3: on a cluster without workers the forward bridge raises
    [ValueError("No workers found")] and leaves the client as it was: no
    [start_master] or [start_slave] call is issued and no process is
    spawned. A run that returns had a non-empty [hosts]. *)
Theorem empty_cluster_raises :
  forall (M : Type) (N : PyNumber M) (c : client M),
    workers c = [] ->
    _dask_to_spark c = (Raise (ValueError "No workers found"), c) /\
    calls (snd (_dask_to_spark c)) = calls c /\
    processes (snd (_dask_to_spark c)) = processes c /\
    forall (c0 : client M) sc,
      fst (_dask_to_spark c0) = Ok sc -> aggregate_hosts (identity_workers c0) <> [].
Proof.
  intros M N c Hw.
  assert (Hrun : _dask_to_spark c = (Raise (ValueError "No workers found"), c)).
  { unfold _dask_to_spark. apply identity_workers_nil in Hw. by rewrite Hw. }
  rewrite Hrun. repeat split.
  intros c0 sc. unfold _dask_to_spark.
  destruct (aggregate_hosts (identity_workers c0)); [discriminate | done].
Qed.

Lemma empty_cluster_raises_witness :
  _dask_to_spark (fresh_client (M:=Z) "tcp://10.0.0.1:8786" []) =
    (Raise (ValueError "No workers found"), fresh_client "tcp://10.0.0.1:8786" []) /\
  aggregate_hosts (identity_workers (fresh_client "tcp://10.0.0.1:8786" scenario)) <> [].
Proof.
  pose proof (empty_cluster_raises Z _ (fresh_client "tcp://10.0.0.1:8786" []) eq_refl)
    as (Hraise & _ & _ & Hreturn).
  split; [exact Hraise|].
  exact (Hreturn (fresh_client "tcp://10.0.0.1:8786" scenario)
           (SparkContext_at "spark://10.0.0.1:7077") eq_refl).
Defined.

(** C4, as stated, fails when [start_master] raises: for a scheduler that
    listens on an IPv6 address the unpacking of [address.split(':')]
    raises [ValueError], which the bridge propagates before any
    [start_slave] call is issued. *)
Lemma launches_once_per_host_counterexample :
  workers (fresh_client "tcp://[::1]:8786" scenario) <> [] /\
  ~ launches_once_per_host (fresh_client "tcp://[::1]:8786" scenario).
Proof.
  split; [discriminate|]. intros [_ Hslaves]. vm_compute in Hslaves. discriminate.
Qed.

(** C4, amended: a run of the forward bridge on a cluster with workers
    issues one [start_master] call; when that call returns the master
    address the bridge then issues one [start_slave] call per entry of
    [hosts], which has one entry per distinct host of the snapshot however
    many workers run there; when it raises, the bridge raises the same
    error and issues no further call. *)
Theorem forward_bridge_calls :
  forall (M : Type) (N : PyNumber M) (c : client M),
    workers c <> [] ->
    let hosts := aggregate_hosts (identity_workers c) in
    NoDup (dict_keys hosts) /\
    (forall h, In h (dict_keys hosts) <->
               In h (map (fun aw => host (info (snd aw))) (workers c))) /\
    length (dict_values hosts) = length (distinct_hosts c) /\
    match _dask_to_spark c with
    | (Ok sc, c') =>
        exists master,
          fst (fst (start_master (scheduler c) 7077 (processes c))) = Ok master /\
          sc = SparkContext_at master /\
          calls c' =
            calls c ++ run_on_scheduler_start_master
                    :: map (launch_slave_call master) (dict_values hosts)
    | (Raise e, c') =>
        fst (fst (start_master (scheduler c) 7077 (processes c))) = Raise e /\
        calls c' = calls c ++ [run_on_scheduler_start_master]
    end.
Proof.
  intros M N c Hw hosts.
  destruct (aggregate_hosts_keys (identity_workers c)) as [Hnd Hin].
  split; [done|]. split; [by intros h; rewrite <- identity_workers_hosts|].
  split; [by unfold dict_values; rewrite length_map; apply distinct_hosts_length|].
  unfold _dask_to_spark. fold hosts.
  destruct hosts as [|e0 hosts'] eqn:Hhosts.
  { subst hosts. apply aggregate_hosts_nil, identity_workers_nil in Hhosts. done. }
  pose proof (_run_on_scheduler_start_master_calls c) as Hcalls.
  unfold _run_on_scheduler_start_master in *.
  destruct (start_master (scheduler c) 7077 (processes c)) as [[[master|e] sched] os];
    cbn [fst snd calls] in *.
  - exists master. repeat split. rewrite launch_slaves_calls.
    cbn [calls]. by rewrite <- app_assoc.
  - done.
Qed.

Lemma forward_bridge_calls_witness :
  calls (snd (_dask_to_spark (fresh_client "tcp://10.0.0.1:8786" scenario))) =
    [run_on_scheduler_start_master;
     run_start_slave "spark://10.0.0.1:7077" 6 12000000000 ["w1"];
     run_start_slave "spark://10.0.0.1:7077" 8 16000000000 ["w3"]].
Proof.
  pose proof (forward_bridge_calls Z _ (fresh_client "tcp://10.0.0.1:8786" scenario)) as Hrun.
  destruct Hrun as (_ & _ & _ & Hrun); [discriminate|].
  destruct (_dask_to_spark (fresh_client "tcp://10.0.0.1:8786" scenario)) as [[sc|e] c'] eqn:Heq.
  - destruct Hrun as (master & Hmaster & _ & Hcalls). cbn [snd]. rewrite Hcalls.
    vm_compute in Hmaster. injection Hmaster as <-. reflexivity.
  - destruct Hrun as [Hmaster _]. vm_compute in Hmaster. discriminate Hmaster.
Defined.

(** ** RemoteProcessLauncher *)

Lemma start_master_returns (dask_scheduler : server) (port : Z) (os : list process)
    (scheme h p : string) :
  split ":" (address dask_scheduler) = [scheme; h; p] ->
  start_master dask_scheduler port os =
    (Ok ("spark://" +:+ strip ":/" h +:+ ":" +:+ str port),
     {| address := address dask_scheduler;
        extensions := <["spark" := length os]> (extensions dask_scheduler);
        atexit := atexit dask_scheduler ++ [length os];
        log := log dask_scheduler ++
               ["Start Spark at " +:+ ("spark://" +:+ strip ":/" h +:+ ":" +:+ str port)] |},
     os ++ [{| argv := ["start-master.sh"; "--host"; strip ":/" h; "--port"; str port];
               alive := true |}]).
Proof. unfold start_master. by intros ->. Qed.

Lemma start_master_Ok_inv (dask_scheduler : server) (port : Z) (os : list process)
    (master : string) (sched' : server) (os' : list process) :
  start_master dask_scheduler port os = (Ok master, sched', os') ->
  exists scheme h p, split ":" (address dask_scheduler) = [scheme; h; p].
Proof.
  unfold start_master.
  destruct (split ":" (address dask_scheduler)) as [|scheme [|h [|p [|more parts]]]];
    try discriminate.
  intros _. by exists scheme, h, p.
Qed.

Lemma int_of_number_inject_Z (n : Z) : int_of_number (inject_Z n) = n.
Proof. unfold int_of_number. simpl. apply Z.quot_1_r. Qed.

Lemma int_of_number_truncates (x : Q) :
  int_of_number x = Z.sgn (Qnum x) * (Z.abs (Qnum x) / Z.pos (Qden x)).
Proof.
  unfold int_of_number. rewrite Z.quot_div by done.
  replace (Z.sgn (Z.pos (Qden x))) with 1 by done.
  replace (Z.abs (Z.pos (Qden x))) with (Z.pos (Qden x)) by done. lia.
Qed.

(** C10: whenever [start_master] returns, the scheduler's address has
    three colon-separated parts [scheme], [h] and a port, and the master
    address is ["spark://"], then [h] stripped of [':'] and ['/'], then
    [":"], then the given port in decimal: the scheme of the scheduler's
    address does not occur in it. *)
Theorem start_master_address :
  forall (dask_scheduler : server) (port : Z) (os : list process)
         (master : string) (sched' : server) (os' : list process),
    start_master dask_scheduler port os = (Ok master, sched', os') ->
    exists scheme h p,
      split ":" (address dask_scheduler) = [scheme; h; p] /\
      master = "spark://" +:+ strip ":/" h +:+ ":" +:+ str port.
Proof.
  intros sched port os master sched' os' Hrun.
  destruct (start_master_Ok_inv _ _ _ _ _ _ Hrun) as (scheme & h & p & Hsplit).
  exists scheme, h, p. split; [done|].
  rewrite (start_master_returns _ _ _ _ _ _ Hsplit) in Hrun. congruence.
Qed.

Lemma start_master_address_witness :
  exists scheme h p,
    split ":" "tls://10.0.0.1:8786" = [scheme; h; p] /\
    "spark://10.0.0.1:7077" = "spark://" +:+ strip ":/" h +:+ ":" +:+ str 7077.
Proof.
  exact (start_master_address (fresh_server "tls://10.0.0.1:8786") 7077 [] _ _ _ eq_refl).
Defined.

(** C9: after a [start_master] call that returned, a second call on the
    same scheduler returns as well; the ['spark'] slot of [extensions],
    which held the handle of the first process, then holds the handle of
    the second and no other slot changed; the first process is still
    running, and it is referenced only by its own exit hook. *)
Theorem start_master_last_write_wins :
  forall (dask_scheduler : server) (port1 port2 : Z) (os : list process)
         (master1 : string) (sched1 : server) (os1 : list process),
    start_master dask_scheduler port1 os = (Ok master1, sched1, os1) ->
    exists master2 sched2 os2 proc1 proc2,
      start_master sched1 port2 os1 = (Ok master2, sched2, os2) /\
      extensions sched1 !! "spark" = Some proc1 /\
      extensions sched2 !! "spark" = Some proc2 /\
      proc1 <> proc2 /\
      extensions sched2 = <["spark" := proc2]> (extensions sched1) /\
      alive <$> os2 !! proc1 = Some true /\
      alive <$> os2 !! proc2 = Some true /\
      atexit sched2 = atexit dask_scheduler ++ [proc1; proc2].
Proof.
  intros sched port1 port2 os master1 sched1 os1 Hrun1.
  destruct (start_master_Ok_inv _ _ _ _ _ _ Hrun1) as (scheme & h & p & Hsplit).
  rewrite (start_master_returns _ _ _ _ _ _ Hsplit) in Hrun1.
  injection Hrun1 as <- <- <-.
  eexists _, _, _, (length os), (S (length os)).
  split.
  { erewrite start_master_returns by exact Hsplit.
    rewrite length_app. simpl. rewrite Nat.add_1_r. reflexivity. }
  cbn [extensions atexit].
  split; [apply lookup_insert_eq|].
  split; [apply lookup_insert_eq|].
  split; [lia|].
  split; [done|].
  split.
  { rewrite lookup_app_l by (rewrite length_app; simpl; lia).
    by rewrite lookup_app_r, Nat.sub_diag by lia. }
  split.
  { rewrite lookup_app_r by (rewrite length_app; simpl; lia).
    rewrite length_app. simpl. by replace (S (length os) - (length os + 1))%nat with 0%nat by lia. }
  by rewrite <- app_assoc.
Qed.

Lemma start_master_last_write_wins_witness :
  exists master2 sched2 os2 proc1 proc2,
    start_master
      {| address := "tcp://10.0.0.1:8786"; extensions := <["spark" := 0%nat]> ∅;
         atexit := [] ++ [0%nat];
         log := [] ++ ["Start Spark at " +:+ "spark://10.0.0.1:7077"] |}
      7078
      ([] ++ [{| argv := ["start-master.sh"; "--host"; "10.0.0.1"; "--port"; "7077"];
                 alive := true |}]) = (Ok master2, sched2, os2) /\
    (<["spark" := 0%nat]> ∅ : gmap string nat) !! "spark" = Some proc1 /\
    extensions sched2 !! "spark" = Some proc2 /\
    proc1 <> proc2 /\
    extensions sched2 = <["spark" := proc2]> (<["spark" := 0%nat]> ∅) /\
    alive <$> os2 !! proc1 = Some true /\
    alive <$> os2 !! proc2 = Some true /\
    atexit sched2 = [] ++ [proc1; proc2].
Proof.
  exact (start_master_last_write_wins (fresh_server "tcp://10.0.0.1:8786") 7077 7078 []
           _ _ _ eq_refl).
Defined.

(** C7: for every master address, number of cores and memory value,
    [start_slave] returns ['OK'], and the process it spawns receives after
    [--memory] the memory value truncated toward zero, in decimal,
    followed by the one character ['B']. *)
Theorem start_slave_token_and_memory :
  forall (master : string) (cores : Z) (memory : Q) (dask_worker : server)
         (os : list process),
    exists worker',
      start_slave master cores memory dask_worker os =
        ("OK", worker',
         os ++ [{| argv :=
                     ["start-slave.sh"; master; "--cores"; str cores; "--memory";
                      str (Z.sgn (Qnum memory) * (Z.abs (Qnum memory) / Z.pos (Qden memory)))
                        +:+ "B"];
                   alive := true |}]) /\
      extensions worker' !! "spark" = Some (length os).
Proof.
  intros master cores memory w os. unfold start_slave, Popen.
  rewrite int_of_number_truncates. eexists. split; [reflexivity|].
  apply lookup_insert_eq.
Qed.

(** ** The worker bootstrap *)

Lemma start_worker_poll_waiting (statuses : list string) (w : nat) (s : slot) :
  Forall (fun status => status <> "closed") statuses ->
  fold_left (fun st status => start_worker_poll status st) statuses (Waiting w, s) =
  (Waiting w, s).
Proof.
  induction 1 as [|status statuses Hstatus _ IH]; simpl; [done|].
  destruct (decide (status = "closed")); [done | exact IH].
Qed.

Lemma start_worker_poll_returned (statuses : list string) (v : list string) (s : slot) :
  fold_left (fun st status => start_worker_poll status st) statuses (Returned v, s) =
  (Returned v, s).
Proof. induction statuses as [|status statuses IH]; simpl; [done | exact IH]. Qed.

(** C6: [start_worker], called in a slot whose marker is set, returns
    [['already occupied']] and leaves the slot as it was, so no second
    worker is started. Called in a free slot it starts one worker and sets
    the marker; as long as the worker's status is not ['closed'] the call
    is still waiting, the marker is still set, and any other call in that
    slot returns [['already occupied']]; at the first read of ['closed']
    it clears the marker and returns [['completed']]. *)
Theorem start_worker_once_per_slot :
  forall (address : string) (s : slot),
    (forall w statuses,
        global_worker s = Some w ->
        start_worker address statuses s = (Returned ["already occupied"], s)) /\
    (global_worker s = None ->
     forall statuses,
       Forall (fun status => status <> "closed") statuses ->
       let w := length (started s) in
       let occupied :=
         {| global_worker := Some w;
            started := started s ++ [address];
            stdout := stdout s ++ ["Started worker"] |} in
       start_worker address statuses s = (Waiting w, occupied) /\
       (forall address' statuses',
           start_worker address' statuses' occupied =
             (Returned ["already occupied"], occupied)) /\
       start_worker address (statuses ++ ["closed"]) s =
         (Returned ["completed"],
          {| global_worker := None;
             started := started s ++ [address];
             stdout := stdout s ++ ["Started worker"] |})).
Proof.
  intros address s.
  assert (Hbusy : forall (s0 : slot) a w statuses,
             global_worker s0 = Some w ->
             start_worker a statuses s0 = (Returned ["already occupied"], s0)).
  { intros s0 a w statuses Hw. unfold start_worker, start_worker_enter. rewrite Hw.
    apply start_worker_poll_returned. }
  split; [intros w statuses; apply Hbusy|].
  intros Hfree statuses Hopen w occupied.
  assert (Hwait : start_worker address statuses s = (Waiting w, occupied)).
  { unfold start_worker, start_worker_enter. rewrite Hfree.
    by apply start_worker_poll_waiting. }
  split; [exact Hwait|]. split.
  - intros address' statuses'. by apply (Hbusy occupied address' w).
  - unfold start_worker in *. rewrite fold_left_app, Hwait. simpl.
    destruct (decide ("closed" = "closed")); done.
Qed.

Lemma start_worker_once_per_slot_witness :
  start_worker "tcp://10.0.0.1:8786" ["running"]
    {| global_worker := Some 0%nat; started := ["tcp://10.0.0.1:8786"];
       stdout := ["Started worker"] |} =
  (Returned ["already occupied"],
   {| global_worker := Some 0%nat; started := ["tcp://10.0.0.1:8786"];
      stdout := ["Started worker"] |}) /\
  start_worker "tcp://10.0.0.1:8786" ["running"; "running"; "closed"]
    {| global_worker := None; started := []; stdout := [] |} =
  (Returned ["completed"],
   {| global_worker := None; started := ["tcp://10.0.0.1:8786"];
      stdout := ["Started worker"] |}).
Proof.
  split.
  - exact (proj1 (start_worker_once_per_slot "tcp://10.0.0.1:8786"
             {| global_worker := Some 0%nat; started := ["tcp://10.0.0.1:8786"];
                stdout := ["Started worker"] |}) 0%nat ["running"] eq_refl).
  - refine (proj2 (proj2 (proj2 (start_worker_once_per_slot "tcp://10.0.0.1:8786"
              {| global_worker := None; started := []; stdout := [] |}) eq_refl
              ["running"; "running"] _))).
    repeat constructor; discriminate.
Defined.

(** ** ReverseBridge: the polling loop *)

Lemma range_In (a b k : Z) : In k (range a b) <-> a <= k < b.
Proof.
  unfold range. rewrite in_map_iff. split.
  - intros (j & <- & Hj). apply in_seq in Hj. lia.
  - intros Hk. exists (Z.to_nat (k - a)). split; [lia|]. apply in_seq. lia.
Qed.

Lemma range_length (a b : Z) : length (range a b) = Z.to_nat (b - a).
Proof. unfold range. by rewrite length_map, length_seq. Qed.

Lemma range_take (a b : Z) (m : nat) :
  (m <= Z.to_nat (b - a))%nat -> take m (range a b) = range a (a + Z.of_nat m).
Proof.
  intros Hm. unfold range.
  rewrite firstn_map, take_seq.
  by replace (Z.to_nat (a + Z.of_nat m - a)) with (m `min` Z.to_nat (b - a))%nat by lia.
Qed.

(** A prefix of a range is a range. *)
Lemma range_prefix (a b : Z) (p rest : list Z) :
  range a b = p ++ rest -> p = range a (a + Z.of_nat (length p)).
Proof.
  intros Hr. rewrite <- (range_take a b).
  - by rewrite Hr, take_app_length.
  - rewrite <- range_length, Hr, length_app. lia.
Qed.

Lemma last_nonempty {A : Type} (x : A) (l : list A) (d d' : A) :
  List.last (x :: l) d = List.last (x :: l) d'.
Proof. revert x. induction l as [|y l IH]; intros x; [done|]. exact (IH y). Qed.

Lemma polled_app (out out' : list event) : polled (out ++ out') = polled out ++ polled out'.
Proof. unfold polled. apply flat_map_app. Qed.

(** What the loop does on any list of iterations: it reads the registry
    for a prefix [p] of them, and either it broke at the last element of
    [p], the first at which the registry was not empty, or it went through
    all of them finding the registry empty. *)
Lemma poll_workers_run (registry : Z -> list string) (iterations : list Z)
    (last : option Z) (out : list event) :
  exists p rest,
    iterations = p ++ rest /\
    polled (snd (poll_workers registry iterations last out)) = polled out ++ p /\
    ((exists p0 k,
         p = p0 ++ [k] /\ Forall (fun i => registry i = []) p0 /\ registry k <> [] /\
         fst (poll_workers registry iterations last out) = Some k) \/
     (rest = [] /\ Forall (fun i => registry i = []) p /\
      fst (poll_workers registry iterations last out) = List.last (map Some p) last)).
Proof.
  revert last out. induction iterations as [|i iterations IH]; intros last out.
  - exists [], []. simpl. rewrite app_nil_r. split; [done|]. split; [done|]. by right.
  - cbn [poll_workers]. destruct (registry i) as [|worker others] eqn:Hi.
    + match goal with
      | |- context [poll_workers registry iterations (Some i) ?o] =>
          destruct (IH (Some i) o) as (p & rest & -> & Hpolled & Hend);
          assert (Ho : polled o = polled out ++ [i])
      end.
      { destruct (i mod 100 =? 0); rewrite !polled_app; simpl; by rewrite ?app_nil_r. }
      exists (i :: p), rest. split; [done|]. split.
      { rewrite Hpolled, Ho, <- app_assoc. done. }
      destruct Hend as [(p0 & k & -> & Hempty & Hk & Hfst)|(-> & Hempty & Hfst)].
      * left. exists (i :: p0), k. repeat split; auto.
      * right. repeat split; auto. rewrite Hfst.
        destruct p as [|j p]; [done|]. cbn [map]. apply (last_nonempty (Some j)).
    + exists [i], iterations. split; [done|]. split.
      { cbn [snd]. by rewrite polled_app. }
      left. exists [], i. repeat split; [constructor | by rewrite Hi].
Qed.

Lemma spark_to_dask_out (registry : Z -> list string) :
  snd (spark_to_dask registry) =
  snd (poll_workers registry (range 1 1000) None prelude).
Proof.
  unfold spark_to_dask.
  destruct (poll_workers registry (range 1 1000) None prelude)
    as [[i|] out]; [|done].
  by destruct (i =? 999).
Qed.

(** The loop of [spark_to_dask]: it stops at an iteration [i] between 1
    and 999, having read the registry at iterations 1 to [i], and found it
    empty before [i]; at [i] it found a worker, or [i] is 999. *)
Lemma spark_to_dask_loop (registry : Z -> list string) :
  exists i,
    1 <= i <= 999 /\
    fst (poll_workers registry (range 1 1000) None prelude) = Some i /\
    polled (snd (spark_to_dask registry)) = range 1 (i + 1) /\
    (forall k, 1 <= k < i -> registry k = []) /\
    (registry i <> [] \/ i = 999).
Proof.
  rewrite spark_to_dask_out.
  destruct (poll_workers_run registry (range 1 1000) None prelude)
    as (p & rest & Hrange & Hpolled & Hend).
  change (polled prelude ++ p) with p in Hpolled. rewrite Hpolled.
  pose proof (range_prefix _ _ _ _ Hrange) as Hp.
  assert (Hlen : (length p <= 999)%nat).
  { change 999%nat with (Z.to_nat (1000 - 1)). rewrite <- range_length, Hrange, length_app. lia. }
  destruct Hend as [(p0 & k & -> & Hempty & Hk & Hfst)|(-> & Hempty & Hfst)].
  - rewrite length_app in Hp, Hlen. simpl in Hp, Hlen.
    assert (Hkin : In k (range 1 (1 + Z.of_nat (length p0 + 1)))).
    { rewrite <- Hp. apply in_app_iff. right. by left. }
    apply range_In in Hkin.
    assert (Hp0 : p0 = range 1 (1 + Z.of_nat (length p0))).
    { apply (range_prefix 1 1000 p0 ([k] ++ rest)). by rewrite Hrange, <- app_assoc. }
    assert (Hk' : k = 1 + Z.of_nat (length p0)).
    { destruct (decide (k = 1 + Z.of_nat (length p0))) as [|Hne]; [done|].
      assert (Hkp0 : In k p0) by (rewrite Hp0; apply range_In; lia).
      rewrite Forall_forall in Hempty. destruct Hk. apply Hempty. by apply list_elem_of_In. }
    exists k. split; [lia|]. split; [done|]. split.
    { rewrite Hp. f_equal. lia. }
    split; [|by left].
    intros j Hj. rewrite Forall_forall in Hempty. apply Hempty, list_elem_of_In.
    rewrite Hp0. apply range_In. lia.
  - rewrite app_nil_r in Hrange. subst p. exists 999.
    split; [lia|]. split; [by rewrite Hfst|]. split; [done|]. split; [|by right].
    intros j Hj. rewrite Forall_forall in Hempty. apply Hempty, list_elem_of_In, range_In. lia.
Qed.

(** When [spark_to_dask] raises its timeout: exactly when the registry was
    empty at each of the iterations 1 to 998. What iteration 999 reads
    makes no difference. *)
Lemma spark_to_dask_timeout_iff (registry : Z -> list string) :
  fst (spark_to_dask registry) = Raise (TimeoutError "No workers arrived") <->
  forall k, 1 <= k < 999 -> registry k = [].
Proof.
  destruct (spark_to_dask_loop registry) as (i & Hi & Hfst & _ & Hbefore & Hat).
  unfold spark_to_dask.
  destruct (poll_workers registry (range 1 1000) None prelude)
    as [last out]. cbn [fst] in Hfst. subst last.
  destruct (Z.eqb_spec i 999) as [->|Hne]; cbn [fst].
  - split; [intros _; exact Hbefore | done].
  - split; [discriminate|]. intros Hempty.
    destruct Hat as [Hat|Hat]; [|done]. destruct Hat. apply Hempty. lia.
Qed.

(** C5: the polling loop of [spark_to_dask] reads the registry at most 999
    times; if the registry is not empty at an iteration [k] below 999, the
    loop stops at an iteration [i] no later than [k], and the iterations
    that read the registry are 1 to [i] and no other. *)
Theorem polling_loop_bounded :
  forall (registry : Z -> list string),
    (length (polled (snd (spark_to_dask registry))) <= 999)%nat /\
    forall k,
      1 <= k < 999 -> registry k <> [] ->
      exists i,
        i <= k /\
        fst (poll_workers registry (range 1 1000) None prelude) =
          Some i /\
        polled (snd (spark_to_dask registry)) = range 1 (i + 1) /\
        Forall (fun j => j <= k) (polled (snd (spark_to_dask registry))) /\
        fst (spark_to_dask registry) = Ok Client_of_LocalCluster.
Proof.
  intros registry.
  destruct (spark_to_dask_loop registry) as (i & Hi & Hfst & Hpolled & Hbefore & Hat).
  split.
  { rewrite Hpolled, range_length. lia. }
  intros k Hk Hworker.
  assert (Hik : i <= k).
  { destruct (Z.le_gt_cases i k) as [|Hlt]; [done|]. destruct Hworker. apply Hbefore. lia. }
  exists i. split; [done|]. split; [done|]. split; [done|]. split.
  - rewrite Hpolled. apply Forall_forall. intros j Hj.
    apply list_elem_of_In, range_In in Hj. lia.
  - destruct (fst (spark_to_dask registry)) as [[]|e] eqn:Hres; [done|].
    assert (Htimeout : fst (spark_to_dask registry) = Raise (TimeoutError "No workers arrived")).
    { revert Hres. unfold spark_to_dask. rewrite (surjective_pairing (poll_workers _ _ _ _)), Hfst.
      destruct (i =? 999); cbn [fst]; congruence. }
    destruct Hworker. by apply (proj1 (spark_to_dask_timeout_iff registry) Htimeout).
Qed.

Lemma polling_loop_bounded_witness :
  exists i,
    i <= 3 /\
    fst (poll_workers (fun k => if k =? 3 then ["tcp://10.0.0.2:40000"] else [])
           (range 1 1000) None prelude) = Some i /\
    polled (snd (spark_to_dask (fun k => if k =? 3 then ["tcp://10.0.0.2:40000"] else []))) =
      range 1 (i + 1) /\
    Forall (fun j => j <= 3)
      (polled (snd (spark_to_dask (fun k => if k =? 3 then ["tcp://10.0.0.2:40000"] else [])))) /\
    fst (spark_to_dask (fun k => if k =? 3 then ["tcp://10.0.0.2:40000"] else [])) =
      Ok Client_of_LocalCluster.
Proof.
  refine (proj2 (polling_loop_bounded
                   (fun k => if k =? 3 then ["tcp://10.0.0.2:40000"] else [])) 3 _ _).
  - lia.
  - discriminate.
Defined.

(** C1, at the input where the code departs from it: the registry is empty
    at iterations 1 to 998 and holds a worker at iteration 999; the loop
    breaks with [i = 999], and [spark_to_dask] raises the timeout although
    a worker has arrived. *)
Theorem timeout_despite_worker_at_999 :
  late_registry 999 = ["tcp://10.0.0.2:40000"] /\
  fst (poll_workers late_registry (range 1 1000) None prelude) =
    Some 999 /\
  fst (spark_to_dask late_registry) = Raise (TimeoutError "No workers arrived").
Proof. split; [reflexivity|]. split; vm_compute; reflexivity. Qed.

(** * Further properties of the module *)

(** ** [spark_to_dask] *)

(** X1: [spark_to_dask] has two outcomes. It raises
    [TimeoutError("No workers arrived")] when the registry was empty at
    each of the iterations 1 to 998, and returns the client when it held a
    worker at one of them; it raises nothing else. *)
Theorem spark_to_dask_outcome :
  forall (registry : Z -> list string),
    ((forall k, 1 <= k < 999 -> registry k = []) /\
     fst (spark_to_dask registry) = Raise (TimeoutError "No workers arrived")) \/
    ((exists k, 1 <= k < 999 /\ registry k <> []) /\
     fst (spark_to_dask registry) = Ok Client_of_LocalCluster).
Proof.
  intros registry.
  destruct (spark_to_dask_loop registry) as (i & Hi & Hfst & _ & Hbefore & Hat).
  unfold spark_to_dask.
  rewrite (surjective_pairing (poll_workers registry (range 1 1000) None prelude)), Hfst.
  destruct (Z.eqb_spec i 999) as [->|Hne]; cbn [fst].
  - left. by split.
  - right. split; [|done]. exists i. split; [lia|]. by destruct Hat.
Qed.

Lemma idle_iterations_sleeps (p : list Z) :
  sleeps (flat_map idle_iteration p) = length p.
Proof.
  unfold sleeps. induction p as [|i p IH]; [done|].
  cbn [flat_map]. rewrite List.filter_app, length_app, IH.
  unfold idle_iteration. by destruct (i mod 100 =? 0).
Qed.

Lemma idle_iterations_printed (p : list Z) :
  printed (flat_map idle_iteration p) =
  length (List.filter (fun i => i mod 100 =? 0) p).
Proof.
  unfold printed. induction p as [|i p IH]; [done|].
  cbn [flat_map List.filter]. rewrite List.filter_app, length_app, IH.
  unfold idle_iteration. by destruct (i mod 100 =? 0).
Qed.

Lemma range_split (a m b : Z) :
  a <= m <= b -> range a b = range a m ++ range m b.
Proof.
  intros Hm. unfold range.
  replace (Z.to_nat (b - a)) with (Z.to_nat (m - a) + Z.to_nat (b - m))%nat by lia.
  rewrite seq_app, map_app. f_equal.
  replace (0 + Z.to_nat (m - a))%nat with (Z.to_nat (m - a) + 0)%nat by lia.
  rewrite <- fmap_add_seq.
  change (map ?f (?g <$> ?l)) with (map f (map g l)). rewrite map_map.
  apply map_ext. intros k. lia.
Qed.

Lemma range_nil (a b : Z) : b <= a -> range a b = [].
Proof. intros Hab. unfold range. by replace (Z.to_nat (b - a)) with 0%nat by lia. Qed.

Lemma range_cons (a b : Z) : a < b -> range a b = a :: range (a + 1) b.
Proof.
  intros Hab. rewrite (range_split a (a + 1) b) by lia.
  unfold range at 1. by replace (a + 1 - a) with 1 by lia; simpl; rewrite Z.add_0_r.
Qed.

(** The multiples of 100 among 1, ..., [n]. *)
Lemma hundreds_upto (n : nat) :
  length (List.filter (fun i => i mod 100 =? 0) (range 1 (1 + Z.of_nat n))) =
  Z.to_nat (Z.of_nat n / 100).
Proof.
  induction n as [|n IH]; [done|].
  assert (Hr : range 1 (1 + Z.of_nat (S n)) = range 1 (1 + Z.of_nat n) ++ [Z.of_nat (S n)]).
  { rewrite (range_split 1 (1 + Z.of_nat n) (1 + Z.of_nat (S n))) by lia.
    rewrite (range_cons (1 + Z.of_nat n)) by lia.
    rewrite (range_nil (1 + Z.of_nat n + 1)) by lia. do 2 f_equal. lia. }
  rewrite Hr, List.filter_app, length_app, IH. cbn [List.filter].
  assert (Hpos : 0 <= Z.of_nat n / 100) by (apply Z.div_pos; lia).
  destruct (Z.eqb_spec (Z.of_nat (S n) mod 100) 0) as [Hm|Hm]; cbn [length].
  - assert (Z.of_nat (S n) / 100 = Z.of_nat n / 100 + 1) as ->
      by (Z.to_euclidean_division_equations; lia).
    lia.
  - assert (Z.of_nat (S n) / 100 = Z.of_nat n / 100) as ->
      by (Z.to_euclidean_division_equations; lia).
    lia.
Qed.

(** The events of the loop on any list of iterations. *)
Lemma poll_workers_events (registry : Z -> list string) (p : list Z) (last : option Z)
    (out : list event) :
  Forall (fun i => registry i = []) p ->
  (forall k rest, registry k <> [] ->
     snd (poll_workers registry (p ++ k :: rest) last out) =
     out ++ flat_map idle_iteration p ++ [read_workers k]) /\
  snd (poll_workers registry p last out) = out ++ flat_map idle_iteration p.
Proof.
  intros Hp. revert last out.
  induction Hp as [|i p Hi _ IH]; intros last out.
  - split; [|by rewrite app_nil_r].
    intros k rest Hk. cbn [app poll_workers flat_map].
    by destruct (registry k).
  - cbn [app poll_workers flat_map]. rewrite Hi.
    match goal with
    | |- context [poll_workers registry _ (Some i) ?o] =>
        destruct (IH (Some i) o) as [IHbreak IHall];
        assert (Ho : o = out ++ idle_iteration i)
    end.
    { unfold idle_iteration. destruct (i mod 100 =? 0); by rewrite <- ?app_assoc. }
    split.
    + intros k rest Hk. rewrite IHbreak by done. rewrite Ho. by rewrite <- !app_assoc.
    + rewrite IHall, Ho. by rewrite <- !app_assoc.
Qed.

(** X2: [spark_to_dask] sleeps 10 ms once for every iteration that finds
    the registry empty, and prints once for every hundredth of them. When
    the first worker is seen at iteration [i] it has slept [i - 1] times
    and printed [(i - 1) / 100] lines, and that read is its last event;
    when no worker is seen at any of the 999 iterations it has slept 999
    times and printed 9 lines. *)
Theorem spark_to_dask_waits :
  forall (registry : Z -> list string),
    (forall i,
        1 <= i <= 999 ->
        (forall k, 1 <= k < i -> registry k = []) ->
        registry i <> [] ->
        snd (spark_to_dask registry) =
          prelude ++ flat_map idle_iteration (range 1 i) ++ [read_workers i] /\
        sleeps (snd (spark_to_dask registry)) = Z.to_nat (i - 1) /\
        printed (snd (spark_to_dask registry)) = Z.to_nat ((i - 1) / 100)) /\
    ((forall k, 1 <= k <= 999 -> registry k = []) ->
     snd (spark_to_dask registry) = prelude ++ flat_map idle_iteration (range 1 1000) /\
     sleeps (snd (spark_to_dask registry)) = 999%nat /\
     printed (snd (spark_to_dask registry)) = 9%nat).
Proof.
  intros registry. rewrite spark_to_dask_out. split.
  - intros i Hi Hbefore Hat.
    assert (Hsplit : range 1 1000 = range 1 i ++ i :: range (i + 1) 1000).
    { rewrite (range_split 1 i 1000) by lia. by rewrite (range_cons i 1000) by lia. }
    assert (Hp : Forall (fun k => registry k = []) (range 1 i)).
    { apply Forall_forall. intros k Hk. apply list_elem_of_In, range_In in Hk.
      apply Hbefore. lia. }
    rewrite Hsplit.
    rewrite (proj1 (poll_workers_events registry (range 1 i) None prelude Hp)) by done.
    split; [done|].
    assert (Hlen : length (range 1 i) = Z.to_nat (i - 1)) by apply range_length.
    split.
    + unfold sleeps. rewrite !List.filter_app, !length_app.
      fold (sleeps (flat_map idle_iteration (range 1 i))).
      rewrite idle_iterations_sleeps, Hlen. simpl. lia.
    + unfold printed. rewrite !List.filter_app, !length_app.
      fold (printed (flat_map idle_iteration (range 1 i))).
      rewrite idle_iterations_printed.
      replace i with (1 + Z.of_nat (Z.to_nat (i - 1))) at 1 by lia.
      rewrite hundreds_upto. simpl. rewrite Z2Nat.id by lia. lia.
  - intros Hall.
    assert (Hp : Forall (fun k => registry k = []) (range 1 1000)).
    { apply Forall_forall. intros k Hk. apply list_elem_of_In, range_In in Hk.
      apply Hall. lia. }
    rewrite (proj2 (poll_workers_events registry (range 1 1000) None prelude Hp)).
    split; [done|]. split.
    + unfold sleeps. rewrite List.filter_app, length_app.
      fold (sleeps (flat_map idle_iteration (range 1 1000))).
      by rewrite idle_iterations_sleeps, range_length.
    + unfold printed. rewrite List.filter_app, length_app.
      fold (printed (flat_map idle_iteration (range 1 1000))).
      rewrite idle_iterations_printed.
      change (range 1 1000) with (range 1 (1 + Z.of_nat 999)).
      by rewrite hundreds_upto.
Qed.

Lemma spark_to_dask_waits_witness :
  sleeps (snd (spark_to_dask (fun k => if k =? 250 then ["tcp://10.0.0.2:40000"] else []))) =
    249%nat /\
  printed (snd (spark_to_dask (fun k => if k =? 250 then ["tcp://10.0.0.2:40000"] else []))) =
    2%nat /\
  sleeps (snd (spark_to_dask (fun _ => []))) = 999%nat /\
  printed (snd (spark_to_dask (fun _ => []))) = 9%nat.
Proof.
  pose proof (spark_to_dask_waits (fun k => if k =? 250 then ["tcp://10.0.0.2:40000"] else []))
    as [Hfound _].
  pose proof (spark_to_dask_waits (fun _ => [])) as [_ Hnone].
  destruct (Hfound 250) as (_ & Hs & Hp).
  - lia.
  - intros k Hk. destruct (Z.eqb_spec k 250); [lia | reflexivity].
  - discriminate.
  - destruct Hnone as (_ & Hs' & Hp'); [reflexivity|].
    split; [exact Hs|]. split; [exact Hp|]. split; [exact Hs' | exact Hp'].
Defined.

(** ** [start_master] and [start_slave] *)

Lemma split_length (sep : ascii) (s : string) :
  length (split sep s) = S (count_char sep s).
Proof.
  induction s as [|c s IH]; [done|]. cbn [split count_char].
  destruct (Ascii.eqb c sep); cbn [length]; [by rewrite IH|].
  destruct (split sep s) as [|part parts]; [discriminate IH | exact IH].
Qed.

Lemma split_no_sep (sep : ascii) (s : string) :
  count_char sep s = 0%nat -> split sep s = [s].
Proof.
  induction s as [|c s IH]; [done|]. cbn [split count_char].
  destruct (Ascii.eqb c sep); [discriminate|]. intros Hs. by rewrite (IH Hs).
Qed.

Lemma split_app (sep : ascii) (a b : string) :
  count_char sep a = 0%nat -> split sep (a +:+ String sep b) = a :: split sep b.
Proof.
  induction a as [|c a IH].
  - intros _. change ("" +:+ String sep b) with (String sep b).
    cbn [split]. by rewrite Ascii.eqb_refl.
  - change (String c a +:+ String sep b) with (String c (a +:+ String sep b)).
    cbn [split count_char].
    destruct (Ascii.eqb c sep); [discriminate|]. intros Ha. by rewrite (IH Ha).
Qed.

Lemma strip_clean (s : string) :
  count_char ":" s = 0%nat -> count_char "/" s = 0%nat -> strip ":/" s = s.
Proof.
  intros Hc Hs. unfold strip.
  assert (Hin : forall c rest, count_char ":" (String c rest) = 0%nat ->
                               count_char "/" (String c rest) = 0%nat ->
                               char_in c ":/" = false).
  { intros c rest. cbn [count_char char_in].
    rewrite (Ascii.eqb_sym c ":"), (Ascii.eqb_sym c "/").
    destruct (Ascii.eqb ":" c), (Ascii.eqb "/" c); done. }
  assert (Hl : lstrip ":/" s = s).
  { destruct s as [|c s]; [done|]. cbn [lstrip]. by rewrite (Hin c s). }
  rewrite Hl. clear Hl.
  induction s as [|c s IH]; [done|].
  assert (Hc' : count_char ":" s = 0%nat) by (cbn [count_char] in Hc; lia).
  assert (Hs' : count_char "/" s = 0%nat) by (cbn [count_char] in Hs; lia).
  cbn [rstrip]. rewrite (IH Hc' Hs'), (Hin c s Hc Hs). by destruct s.
Qed.

(** The two cases of [start_master]. *)
Lemma start_master_cases :
  forall (dask_scheduler : server) (port : Z) (os : list process),
    (count_char ":" (address dask_scheduler) = 2%nat /\
     exists master sched',
       start_master dask_scheduler port os =
         (Ok master, sched',
          os ++ [{| argv := ["start-master.sh"; "--host";
                             strip ":/" (nth 1 (split ":" (address dask_scheduler)) "");
                             "--port"; str port];
                    alive := true |}])) \/
    (count_char ":" (address dask_scheduler) <> 2%nat /\
     start_master dask_scheduler port os =
       (Raise (unpack3_error (S (count_char ":" (address dask_scheduler)))),
        dask_scheduler, os)).
Proof.
  intros sched port os.
  pose proof (split_length ":" (address sched)) as Hlen.
  unfold start_master.
  destruct (split ":" (address sched)) as [|scheme [|h [|p [|more parts]]]];
    cbn [length] in Hlen.
  - discriminate.
  - right. split; [lia|]. by rewrite <- Hlen.
  - right. split; [lia|]. by rewrite <- Hlen.
  - left. split; [lia|]. by eexists _, _.
  - right. split; [lia|]. by rewrite <- Hlen.
Qed.


(** X4: on a scheduler address of the form [scheme://host:p], where no
    part holds a colon and the host no slash, [start_master] returns
    [spark://host:port]: the host of the scheduler, and the port it was
    given, not the port [p] of the scheduler. It launches
    [start-master.sh --host host --port port] and records the new process
    in the ['spark'] slot. *)
Theorem start_master_standard_address :
  forall (dask_scheduler : server) (port : Z) (os : list process)
         (scheme host p : string),
    address dask_scheduler = scheme +:+ "://" +:+ host +:+ ":" +:+ p ->
    count_char ":" scheme = 0%nat ->
    count_char ":" host = 0%nat ->
    count_char "/" host = 0%nat ->
    count_char ":" p = 0%nat ->
    exists sched',
      start_master dask_scheduler port os =
        (Ok ("spark://" +:+ host +:+ ":" +:+ str port), sched',
         os ++ [{| argv := ["start-master.sh"; "--host"; host; "--port"; str port];
                   alive := true |}]) /\
      extensions sched' !! "spark" = Some (length os).
Proof.
  intros sched port os scheme host p Haddr Hscheme Hhost Hslash Hp.
  assert (Hsplit : split ":" (address sched) = [scheme; "//" +:+ host; p]).
  { rewrite Haddr.
    change (scheme +:+ "://" +:+ host +:+ ":" +:+ p)
      with (scheme +:+ String ":" (("//" +:+ host) +:+ String ":" p)).
    rewrite split_app by done. rewrite split_app by done. by rewrite split_no_sep. }
  rewrite (start_master_returns _ _ _ _ _ _ Hsplit).
  change (strip ":/" ("//" +:+ host)) with (strip ":/" host).
  rewrite strip_clean by done.
  eexists. split; [reflexivity|]. apply lookup_insert_eq.
Qed.

Lemma start_master_standard_address_witness :
  exists sched',
    start_master (fresh_server "tcp://10.0.0.1:8786") 7077 [] =
      (Ok ("spark://" +:+ "10.0.0.1" +:+ ":" +:+ str 7077), sched',
       [] ++ [{| argv := ["start-master.sh"; "--host"; "10.0.0.1"; "--port"; str 7077];
                 alive := true |}]) /\
    extensions sched' !! "spark" = Some (length (@nil process)).
Proof.
  exact (start_master_standard_address (fresh_server "tcp://10.0.0.1:8786") 7077 []
           "tcp" "10.0.0.1" "8786" eq_refl eq_refl eq_refl eq_refl eq_refl).
Defined.

(** *** Exit hooks *)

Lemma terminate_length (proc : nat) (os : list process) :
  length (terminate proc os) = length os.
Proof. unfold terminate. apply length_alter. Qed.

Lemma terminate_all_length (hooks : list nat) (os : list process) :
  length (fold_left (fun os proc => terminate proc os) hooks os) = length os.
Proof.
  revert os. induction hooks as [|proc hooks IH]; intros os; simpl; [done|].
  by rewrite IH, terminate_length.
Qed.

Lemma terminate_all_alive (hooks : list nat) (os : list process) (j : nat) :
  alive <$> fold_left (fun os proc => terminate proc os) hooks os !! j =
  if decide (j ∈ hooks) then (fun _ => false) <$> os !! j else alive <$> os !! j.
Proof.
  revert os. induction hooks as [|proc hooks IH]; intros os; cbn [fold_left].
  - destruct (decide (j ∈ [])) as [Hin|]; [by apply elem_of_nil in Hin | done].
  - rewrite IH. unfold terminate.
    destruct (decide (j = proc)) as [->|Hne].
    + rewrite list_lookup_alter_eq.
      destruct (decide (proc ∈ proc :: hooks)) as [_|Hn]; [|destruct Hn; by left].
      destruct (decide (proc ∈ hooks)); destruct (os !! proc); reflexivity.
    + rewrite list_lookup_alter_ne by done.
      destruct (decide (j ∈ hooks)) as [Hin|Hin], (decide (j ∈ proc :: hooks)) as [Hin'|Hin'];
        try done.
      * destruct Hin'. by right.
      * apply elem_of_cons in Hin' as [?|?]; done.
Qed.

Lemma terminate_all_other (hooks : list nat) (os : list process) (j : nat) :
  ~ In j hooks ->
  fold_left (fun os proc => terminate proc os) hooks os !! j = os !! j.
Proof.
  revert os. induction hooks as [|proc hooks IH]; intros os Hj; cbn [fold_left]; [done|].
  rewrite IH by (intros ?; apply Hj; by right).
  unfold terminate. apply list_lookup_alter_ne. intros ->. apply Hj. by left.
Qed.

Lemma start_masters_run (ports : list Z) (dask_scheduler : server) (os : list process) :
  count_char ":" (address dask_scheduler) = 2%nat ->
  address (fst (start_masters ports (dask_scheduler, os))) = address dask_scheduler /\
  atexit (fst (start_masters ports (dask_scheduler, os))) =
    atexit dask_scheduler ++ seq (length os) (length ports) /\
  length (snd (start_masters ports (dask_scheduler, os))) = (length os + length ports)%nat /\
  (forall j, (j < length os)%nat ->
             snd (start_masters ports (dask_scheduler, os)) !! j = os !! j) /\
  (forall j, (length os <= j < length os + length ports)%nat ->
             alive <$> snd (start_masters ports (dask_scheduler, os)) !! j = Some true) /\
  (ports <> [] ->
   extensions (fst (start_masters ports (dask_scheduler, os))) !! "spark" =
     Some (length os + length ports - 1)%nat).
Proof.
  revert dask_scheduler os.
  induction ports as [|port ports IH]; intros sched os Hcolons.
  - cbn [start_masters fold_left fst snd length]. rewrite app_nil_r.
    repeat split; try done. intros j Hj. lia.
  - unfold start_masters. cbn [fold_left fst snd].
    destruct (start_master_cases sched port os) as [[_ Hok]|[Hne _]]; [|done].
    destruct Hok as (master & sched' & Hrun).
    pose proof Hrun as Hrun'.
    destruct (start_master_Ok_inv _ _ _ _ _ _ Hrun') as (scheme & h & p & Hsplit).
    rewrite (start_master_returns _ _ _ _ _ _ Hsplit) in Hrun'.
    injection Hrun' as _ Hsched _.
    rewrite Hrun.
    match goal with
    | |- context [fold_left _ ports (sched', ?o)] =>
        fold (start_masters ports (sched', o));
        destruct (IH sched' o) as (Haddr & Hexit & Hlen & Hold & Hnew & Hslot)
    end.
    { by rewrite <- Hsched. }
    rewrite length_app in *. cbn [length] in *.
    split; [by rewrite Haddr, <- Hsched|].
    split; [rewrite Hexit, <- Hsched; cbn [atexit seq]; rewrite <- app_assoc;
            by replace (length os + 1)%nat with (S (length os)) by lia|].
    split; [lia|].
    split; [intros j Hj; rewrite Hold by lia; by rewrite lookup_app_l by done|].
    split.
    + intros j Hj. destruct (decide (j = length os)) as [->|Hne].
      * rewrite Hold by lia. by rewrite lookup_app_r, Nat.sub_diag by lia.
      * apply Hnew. lia.
    + intros _. destruct ports as [|port' ports'].
      * cbn [start_masters fold_left fst length]. rewrite <- Hsched. cbn [extensions].
        rewrite lookup_insert_eq. f_equal. lia.
      * rewrite Hslot by done. f_equal. cbn [length]. lia.
Qed.

(** X5: launch any number of masters from one scheduler: the ['spark']
    slot holds only the last of them, yet each launch registered its own
    exit hook, so that when the scheduler's process exits every one of
    them is terminated; processes that no hook names are left alone. *)
Theorem exit_terminates_every_master :
  forall (ports : list Z) (dask_scheduler : server) (os : list process),
    count_char ":" (address dask_scheduler) = 2%nat ->
    let st := start_masters ports (dask_scheduler, os) in
    let at_exit := run_atexit (fst st) (snd st) in
    length at_exit = (length os + length ports)%nat /\
    (ports <> [] ->
     extensions (fst st) !! "spark" = Some (length os + length ports - 1)%nat) /\
    (forall j, (length os <= j < length os + length ports)%nat ->
               alive <$> snd st !! j = Some true /\ alive <$> at_exit !! j = Some false) /\
    (forall j, (j < length os)%nat -> ~ In j (atexit dask_scheduler) ->
               at_exit !! j = os !! j).
Proof.
  intros ports sched os Hcolons st at_exit.
  destruct (start_masters_run ports sched os Hcolons)
    as (Haddr & Hexit & Hlen & Hold & Hnew & Hslot).
  fold st in Haddr, Hexit, Hlen, Hold, Hnew, Hslot.
  subst at_exit. unfold run_atexit.
  split; [by rewrite terminate_all_length|].
  split; [done|]. split.
  - intros j Hj. split; [by apply Hnew|].
    rewrite terminate_all_alive.
    destruct (decide (j ∈ rev (atexit (fst st)))) as [_|Hn].
    + pose proof (Hnew j Hj) as Halive. by destruct (snd st !! j).
    + destruct Hn. apply list_elem_of_In. rewrite <- in_rev, Hexit. apply in_app_iff. right.
      apply in_seq. lia.
  - intros j Hj Hhook. rewrite terminate_all_other; [by apply Hold|].
    intros Hin. rewrite <- in_rev, Hexit in Hin.
    apply in_app_iff in Hin as [Hin|Hin]; [done|]. apply in_seq in Hin. lia.
Qed.

Lemma exit_terminates_every_master_witness :
  alive <$> run_atexit (fst (start_masters [7077; 7078] (fresh_server "tcp://10.0.0.1:8786", [])))
              (snd (start_masters [7077; 7078] (fresh_server "tcp://10.0.0.1:8786", [])))
            !! 0%nat = Some false /\
  extensions (fst (start_masters [7077; 7078] (fresh_server "tcp://10.0.0.1:8786", [])))
    !! "spark" = Some 1%nat.
Proof.
  pose proof (exit_terminates_every_master [7077; 7078] (fresh_server "tcp://10.0.0.1:8786") []
                eq_refl) as (_ & Hslot & Hnew & _).
  split.
  - apply (Hnew 0%nat). simpl. lia.
  - apply Hslot. discriminate.
Defined.

(** ** The aggregation of hosts *)

Lemma Zsum_cons (x : Z) (l : list Z) : Zsum (x :: l) = x + Zsum l.
Proof. reflexivity. Qed.

Section DictTotals.
Context {V : Type} (g : V -> Z).
Implicit Types (d : list (string * V)) (k : string) (v : V).

Lemma dict_alter_total (f : V -> V) k d :
  Zsum (map g (dict_values (dict_alter f k d))) =
  Zsum (map g (dict_values d)) +
  match dict_get k d with Some v => g (f v) - g v | None => 0 end.
Proof.
  unfold dict_values. induction d as [|[k0 v0] d IH]; cbn [dict_alter dict_get map].
  - simpl. lia.
  - destruct (decide (k = k0)); cbn [map snd]; rewrite !Zsum_cons; [lia|].
    rewrite IH. lia.
Qed.

Lemma dict_set_total k v d :
  dict_get k d = None ->
  Zsum (map g (dict_values (dict_set k v d))) = Zsum (map g (dict_values d)) + g v.
Proof.
  unfold dict_values. induction d as [|[k0 v0] d IH]; cbn [dict_set dict_get map].
  - intros _. simpl. lia.
  - destruct (decide (k = k0)); [done|]. intros Hd.
    cbn [map snd]. rewrite !Zsum_cons, (IH Hd). lia.
Qed.
End DictTotals.

Lemma Zsum_app (l l' : list Z) : Zsum (l ++ l') = Zsum l + Zsum l'.
Proof.
  induction l as [|x l IH]; [done|]. cbn [app]. rewrite !Zsum_cons, IH. lia.
Qed.

Lemma Zsum_Permutation (l l' : list Z) : Permutation l l' -> Zsum l = Zsum l'.
Proof.
  induction 1 as [|x l l' _ IH|x y l|l l' l'' _ IH1 _ IH2];
    rewrite ?Zsum_cons; lia.
Qed.

Section AggregationTotals.
Context {M : Type} `{PyNumber M}.

Lemma aggregate_step_total (g : host_entry M -> Z) (delta : worker_info M -> Z)
    (hosts : list (string * host_entry M)) (a : string) (i : worker_info M) :
  (forall e, g (add_memory (reported_memory i) (add_cores (ncores i) e)) = g e + delta i) ->
  g {| entry_address := a; entry_cores := 0; entry_memory := py_zero |} = 0 ->
  Zsum (map g (dict_values (aggregate_step hosts (a, i)))) =
  Zsum (map g (dict_values hosts)) + delta i.
Proof.
  intros Hboth Hzero. unfold aggregate_step.
  rewrite !dict_alter_total, dict_get_alter.
  destruct (decide (host i = host i)) as [_|]; [|done].
  destruct (dict_get (host i) hosts) as [e|] eqn:He.
  - rewrite He. cbn [fmap option_fmap option_map]. pose proof (Hboth e). lia.
  - rewrite dict_set_total by done. rewrite dict_get_set.
    destruct (decide (host i = host i)) as [_|]; [|done].
    cbn [fmap option_fmap option_map].
    pose proof (Hboth {| entry_address := a; entry_cores := 0; entry_memory := py_zero |}).
    lia.
Qed.

Lemma fold_aggregate_total (g : host_entry M -> Z) (delta : worker_info M -> Z)
    (ws : list (string * worker_info M)) (hosts : list (string * host_entry M)) :
  (forall i e, g (add_memory (reported_memory i) (add_cores (ncores i) e)) = g e + delta i) ->
  (forall a, g {| entry_address := a; entry_cores := 0; entry_memory := py_zero |} = 0) ->
  Zsum (map g (dict_values (fold_left aggregate_step ws hosts))) =
  Zsum (map g (dict_values hosts)) + Zsum (map (fun aw => delta (snd aw)) ws).
Proof.
  intros Hboth Hzero. revert hosts.
  induction ws as [|[a i] ws IH]; intros hosts; cbn [fold_left map].
  - simpl. lia.
  - rewrite IH, (aggregate_step_total g delta) by auto. rewrite Zsum_cons. cbn [snd]. lia.
Qed.
End AggregationTotals.


Lemma workers_on_Permutation {M : Type} (h : string) (ws ws' : list (string * worker_info M)) :
  Permutation ws ws' -> Permutation (workers_on h ws) (workers_on h ws').
Proof. intros Hp. unfold workers_on. by rewrite Hp. Qed.



Lemma filter_keeps_all {A : Type} (P : A -> Prop) `{!forall x, Decision (P x)} (l : list A) :
  (forall x, In x l -> P x) -> filter P l = l.
Proof.
  induction l as [|x l IH]; intros Hall; [done|].
  rewrite filter_cons_True by (apply Hall; by left).
  f_equal. apply IH. intros y Hy. apply Hall. by right.
Qed.

Lemma first_occurrences_incl (l : list string) (h : string) :
  In h (first_occurrences l) <-> In h l.
Proof.
  induction l as [|h0 l IH]; simpl; [done|]. split.
  - intros [->|Hin]; [by left|].
    apply list_elem_of_In, list_elem_of_filter in Hin as [_ Hin].
    right. apply IH, list_elem_of_In, Hin.
  - intros [->|Hin]; [by left|].
    destruct (decide (h = h0)) as [->|Hne]; [by left|].
    right. apply list_elem_of_In, list_elem_of_filter. split; [done|].
    apply list_elem_of_In, IH, Hin.
Qed.

Lemma fold_aggregate_keys_order {M : Type} `{PyNumber M}
    (ws : list (string * worker_info M)) (hosts : list (string * host_entry M)) :
  dict_keys (fold_left aggregate_step ws hosts) =
  dict_keys hosts ++
  filter (fun h => h ∉ dict_keys hosts) (first_occurrences (map (fun aw => host (snd aw)) ws)).
Proof.
  revert hosts. induction ws as [|[a i] ws IH]; intros hosts; cbn [fold_left map first_occurrences].
  - by rewrite filter_nil, app_nil_r.
  - rewrite IH, aggregate_step_keys.
    set (rest := first_occurrences (map (fun aw => host (snd aw)) ws)).
    destruct (dict_get (host i) hosts) as [e|] eqn:He.
    + assert (Hin : host i ∈ dict_keys hosts)
        by (apply list_elem_of_In, dict_get_Some_In; by rewrite He).
      rewrite filter_cons_False by (intros Hn; by apply Hn). f_equal.
      rewrite list_filter_filter. apply list_filter_iff. intros h. split; [|tauto].
      intros Hh. split; [done|]. by intros ->.
    + apply dict_get_None in He.
      rewrite filter_cons_True by (by rewrite list_elem_of_In).
      rewrite <- app_assoc. cbn [app]. do 2 f_equal.
      rewrite list_filter_filter. apply list_filter_iff. intros h.
      rewrite not_elem_of_app, list_elem_of_singleton. tauto.
Qed.

(** X8: [hosts] lists the hosts of the snapshot in the order in which each
    first occurs there, which is the order of the [start_slave] calls; it
    never has more entries than the snapshot has workers, and has as many
    when every worker runs on a host of its own. *)
Theorem aggregate_hosts_order :
  forall (M : Type) (N : PyNumber M) (ws : list (string * worker_info M)),
    dict_keys (aggregate_hosts ws) = first_occurrences (map (fun aw => host (snd aw)) ws) /\
    (length (aggregate_hosts ws) <= length ws)%nat /\
    (NoDup (map (fun aw => host (snd aw)) ws) -> length (aggregate_hosts ws) = length ws).
Proof.
  intros M N ws.
  assert (Hkeys : dict_keys (aggregate_hosts ws) =
                  first_occurrences (map (fun aw => host (snd aw)) ws)).
  { unfold aggregate_hosts. rewrite fold_aggregate_keys_order. cbn [dict_keys map app].
    apply filter_keeps_all. intros h _. apply not_elem_of_nil. }
  assert (Hlen : length (aggregate_hosts ws) = length (dict_keys (aggregate_hosts ws)))
    by (unfold dict_keys; by rewrite length_map).
  split; [done|]. rewrite Hlen, Hkeys. clear Hkeys Hlen.
  rewrite <- (length_map (fun aw => host (snd aw)) ws).
  generalize (map (fun aw => host (snd aw)) ws). intros l. split.
  - induction l as [|h l IH]; simpl; [lia|].
    pose proof (length_filter (fun h' => h' <> h) (first_occurrences l)). lia.
  - induction 1 as [|h l Hh _ IH]; simpl; [done|]. f_equal.
    rewrite filter_keeps_all; [by rewrite IH|].
    intros h' Hin ->. apply Hh, list_elem_of_In, first_occurrences_incl, Hin.
Qed.

Lemma aggregate_hosts_order_witness :
  length (aggregate_hosts (M:=Z)
            [("w1", {| host := "A"; ncores := 4; memory_limit := None |});
             ("w3", {| host := "B"; ncores := 8; memory_limit := None |})]) =
  2%nat.
Proof.
  refine (proj2 (proj2 (aggregate_hosts_order Z _
            [("w1", {| host := "A"; ncores := 4; memory_limit := None |});
             ("w3", {| host := "B"; ncores := 8; memory_limit := None |})])) _).
  cbn [map snd host]. apply NoDup_cons_2.
  - intros Hin. apply list_elem_of_singleton in Hin. discriminate Hin.
  - apply NoDup_cons_2; [apply not_elem_of_nil | apply NoDup_nil_2].
Defined.

(** ** The forward bridge as a whole *)

Lemma dict_set_same {V B : Type} (f : V -> B) (k : string) (v v' : V) (d : list (string * V)) :
  dict_get k d = Some v -> f v' = f v ->
  map (fun kv => (fst kv, f (snd kv))) (dict_set k v' d) =
  map (fun kv => (fst kv, f (snd kv))) d.
Proof.
  intros Hget Hf. induction d as [|[k0 v0] d IH]; [done|].
  cbn [dict_get dict_set] in *.
  destruct (decide (k = k0)) as [->|Hne]; cbn [map fst snd].
  - injection Hget as ->. by rewrite Hf.
  - by rewrite IH.
Qed.

Section ForwardRun.
Context {M : Type} `{PyNumber M}.
Implicit Types (c : client M).

Lemma start_slave_on_frame master cores memory c addr :
  scheduler (start_slave_on master cores memory c addr) = scheduler c /\
  identity_workers (start_slave_on master cores memory c addr) = identity_workers c.
Proof.
  unfold start_slave_on.
  destruct (dict_get addr (workers c)) as [w|] eqn:Hw; [|done].
  unfold start_slave, Popen. cbn [scheduler]. split; [done|].
  unfold identity_workers. cbn [workers]. by apply (dict_set_same info addr w).
Qed.

Lemma start_slave_on_spawns master cores memory c addr :
  In addr (dict_keys (workers c)) ->
  processes (start_slave_on master cores memory c addr) =
  processes c ++
  [{| argv := ["start-slave.sh"; master; "--cores"; str cores; "--memory"; str memory +:+ "B"];
      alive := true |}].
Proof.
  intros Hin. unfold start_slave_on.
  destruct (dict_get addr (workers c)) as [w|] eqn:Hw.
  - unfold start_slave, Popen. cbn [processes]. by rewrite int_of_number_inject_Z.
  - by apply dict_get_None in Hw.
Qed.

Lemma launch_slaves_frame master entries c :
  scheduler (launch_slaves master entries c) = scheduler c /\
  identity_workers (launch_slaves master entries c) = identity_workers c.
Proof.
  unfold launch_slaves. revert c.
  induction entries as [|e entries IH]; intros c; cbn [fold_left]; [done|].
  destruct (IH (_run_start_slave master (entry_cores e) (py_int (entry_memory e))
                  [entry_address e] c)) as [-> ->].
  unfold _run_start_slave. cbn [fold_left].
  match goal with
  | |- context [start_slave_on ?m ?co ?me ?c0 ?a] =>
      destruct (start_slave_on_frame m co me c0 a) as [-> ->]
  end.
  done.
Qed.

Lemma launch_slaves_spawn master entries c :
  Forall (fun e => In (entry_address e) (dict_keys (workers c))) entries ->
  processes (launch_slaves master entries c) =
  processes c ++ map (slave_process master) entries.
Proof.
  unfold launch_slaves. revert c.
  induction entries as [|e entries IH]; intros c Hall; cbn [fold_left map].
  - by rewrite app_nil_r.
  - inversion Hall as [|? ? He Hall']; subst.
    unfold _run_start_slave at 2. cbn [fold_left].
    match goal with
    | |- context [start_slave_on ?m ?co ?me ?c0 ?a] =>
        destruct (start_slave_on_found m co me c0 a He) as [Hkeys _];
        pose proof (start_slave_on_spawns m co me c0 a He) as Hspawn
    end.
    rewrite IH by (by rewrite Hkeys). rewrite Hspawn. cbn [processes].
    by rewrite <- app_assoc.
Qed.

(** A run that returns, step by step. *)
Lemma forward_bridge_success c sc c' :
  _dask_to_spark c = (Ok sc, c') ->
  exists scheme h p,
    split ":" (address (scheduler c)) = [scheme; h; p] /\
    aggregate_hosts (identity_workers c) <> [] /\
    sc = SparkContext_at ("spark://" +:+ strip ":/" h +:+ ":" +:+ str 7077) /\
    c' = launch_slaves ("spark://" +:+ strip ":/" h +:+ ":" +:+ str 7077)
           (dict_values (aggregate_hosts (identity_workers c)))
           (snd (_run_on_scheduler_start_master c)).
Proof.
  intros Hrun.
  assert (Hne : aggregate_hosts (identity_workers c) <> []).
  { intros Hnil. unfold _dask_to_spark in Hrun. by rewrite Hnil in Hrun. }
  rewrite (_dask_to_spark_launch c Hne) in Hrun.
  unfold _run_on_scheduler_start_master in *.
  destruct (start_master (scheduler c) 7077 (processes c)) as [[[master|e] sched] os] eqn:Hmaster;
    [|discriminate].
  destruct (start_master_Ok_inv _ _ _ _ _ _ Hmaster) as (scheme & h & p & Hsplit).
  rewrite (start_master_returns _ _ _ _ _ _ Hsplit) in Hmaster.
  injection Hmaster as <- _ _.
  exists scheme, h, p. injection Hrun as <- <-. by repeat split.
Qed.
Lemma _run_on_scheduler_start_master_frame c :
  address (scheduler (snd (_run_on_scheduler_start_master c))) = address (scheduler c) /\
  workers (snd (_run_on_scheduler_start_master c)) = workers c.
Proof.
  unfold _run_on_scheduler_start_master, start_master.
  by destruct (split ":" (address (scheduler c))) as [|scheme [|h [|p [|more parts]]]].
Qed.

(** What a run that returns leaves behind. *)
Lemma forward_bridge_effect c sc c' :
  _dask_to_spark c = (Ok sc, c') ->
  exists host_arg,
    sc = SparkContext_at ("spark://" +:+ host_arg +:+ ":7077") /\
    processes c' =
      processes c ++
      {| argv := ["start-master.sh"; "--host"; host_arg; "--port"; "7077"]; alive := true |}
      :: map (slave_process ("spark://" +:+ host_arg +:+ ":7077"))
             (dict_values (aggregate_hosts (identity_workers c))) /\
    extensions (scheduler c') !! "spark" = Some (length (processes c)) /\
    address (scheduler c') = address (scheduler c) /\
    identity_workers c' = identity_workers c.
Proof.
  intros Hrun.
  destruct (forward_bridge_success c sc c' Hrun) as (scheme & h & p & Hsplit & Hne & -> & ->).
  exists (strip ":/" h). split; [done|].
  destruct (launch_slaves_frame ("spark://" +:+ strip ":/" h +:+ ":" +:+ str 7077)
              (dict_values (aggregate_hosts (identity_workers c)))
              (snd (_run_on_scheduler_start_master c))) as [Hsched Hid].
  destruct (_run_on_scheduler_start_master_frame c) as [Haddr Hworkers].
  rewrite Hsched, Hid, Haddr, launch_slaves_spawn.
  - unfold _run_on_scheduler_start_master.
    rewrite (start_master_returns _ _ _ _ _ _ Hsplit).
    cbn [snd processes scheduler extensions].
    split; [by rewrite <- app_assoc|]. split; [apply lookup_insert_eq|]. split; [done|].
    by unfold identity_workers.
  - rewrite Hworkers.
    pose proof (aggregate_hosts_addresses (identity_workers c)) as Hin.
    replace (map fst (identity_workers c)) with (dict_keys (workers c)) in Hin; [done|].
    unfold identity_workers, dict_keys. by rewrite map_map.
Qed.

(** The two ways in which a run fails. *)
Lemma forward_bridge_failure c e c' :
  _dask_to_spark c = (Raise e, c') ->
  (workers c = [] /\ e = ValueError "No workers found" /\ c' = c) \/
  (workers c <> [] /\
   count_char ":" (address (scheduler c)) <> 2%nat /\
   e = unpack3_error (S (count_char ":" (address (scheduler c)))) /\
   c' = {| scheduler := scheduler c; workers := workers c; processes := processes c;
           calls := calls c ++ [run_on_scheduler_start_master] |}).
Proof.
  intros Hrun.
  destruct (aggregate_hosts (identity_workers c)) as [|e0 hosts] eqn:Hhosts.
  - left. unfold _dask_to_spark in Hrun. rewrite Hhosts in Hrun. injection Hrun as <- <-.
    by apply aggregate_hosts_nil, identity_workers_nil in Hhosts.
  - right.
    assert (Hne : aggregate_hosts (identity_workers c) <> []) by (by rewrite Hhosts).
    split. { intros Hw. apply Hne, aggregate_hosts_nil, identity_workers_nil, Hw. }
    rewrite (_dask_to_spark_launch c Hne) in Hrun.
    unfold _run_on_scheduler_start_master in Hrun.
    destruct (start_master_cases (scheduler c) 7077 (processes c))
      as [[_ (master & sched' & Hok)]|[Hcolons Hraise]].
    + rewrite Hok in Hrun. discriminate.
    + rewrite Hraise in Hrun. injection Hrun as <- <-. by repeat split.
Qed.
End ForwardRun.

(** X9: a run of the forward bridge that returns has spawned, after the
    processes that were there, one master and then, for each entry of
    [hosts] in order, one slave: [start-slave.sh] with the master address
    the returned [SparkContext] is bound to, the cores of the host, and
    its memory as an integer followed by [B]. The ['spark'] slot of the
    scheduler holds the handle of the master. *)
Theorem forward_bridge_spawns :
  forall (M : Type) (N : PyNumber M) (c : client M) (sc : SparkContext) (c' : client M),
    _dask_to_spark c = (Ok sc, c') ->
    exists master host_arg,
      sc = SparkContext_at master /\
      master = "spark://" +:+ host_arg +:+ ":7077" /\
      processes c' =
        processes c ++
        {| argv := ["start-master.sh"; "--host"; host_arg; "--port"; "7077"]; alive := true |}
        :: map (fun e => {| argv := slave_argv master e; alive := true |})
               (dict_values (aggregate_hosts (identity_workers c))) /\
      extensions (scheduler c') !! "spark" = Some (length (processes c)).
Proof.
  intros M N c sc c' Hrun.
  destruct (forward_bridge_effect c sc c' Hrun) as (host_arg & Hsc & Hprocs & Hslot & _).
  by exists ("spark://" +:+ host_arg +:+ ":7077"), host_arg.
Qed.

Lemma forward_bridge_spawns_witness :
  exists master host_arg,
    SparkContext_at "spark://10.0.0.1:7077" = SparkContext_at master /\
    master = "spark://" +:+ host_arg +:+ ":7077" /\
    processes (snd (_dask_to_spark (fresh_client "tcp://10.0.0.1:8786" scenario))) =
      processes (fresh_client "tcp://10.0.0.1:8786" scenario) ++
      {| argv := ["start-master.sh"; "--host"; host_arg; "--port"; "7077"]; alive := true |}
      :: map (fun e => {| argv := slave_argv master e; alive := true |})
             (dict_values (aggregate_hosts
                (identity_workers (fresh_client "tcp://10.0.0.1:8786" scenario)))) /\
    extensions (scheduler (snd (_dask_to_spark (fresh_client "tcp://10.0.0.1:8786" scenario))))
      !! "spark" = Some (length (processes (fresh_client "tcp://10.0.0.1:8786" scenario))).
Proof.
  exact (forward_bridge_spawns Z _ (fresh_client "tcp://10.0.0.1:8786" scenario) _ _
           (surjective_pairing _)).
Defined.

(** X10: a run of the forward bridge, whether it returns or raises, leaves
    the cluster's topology as it found it: the scheduler keeps its
    address, and [identity()] reports the same workers in the same order,
    so that the aggregation after the run gives the same [hosts]. *)
Theorem forward_bridge_keeps_topology :
  forall (M : Type) (N : PyNumber M) (c : client M),
    address (scheduler (snd (_dask_to_spark c))) = address (scheduler c) /\
    identity_workers (snd (_dask_to_spark c)) = identity_workers c /\
    aggregate_hosts (identity_workers (snd (_dask_to_spark c))) =
      aggregate_hosts (identity_workers c).
Proof.
  intros M N c.
  assert (Hframe : address (scheduler (snd (_dask_to_spark c))) = address (scheduler c) /\
                   identity_workers (snd (_dask_to_spark c)) = identity_workers c).
  { destruct (_dask_to_spark c) as [[sc|e] c'] eqn:Hrun; cbn [snd].
    - destruct (forward_bridge_effect c sc c' Hrun) as (_ & _ & _ & _ & Haddr & Hid). done.
    - destruct (forward_bridge_failure c e c' Hrun) as [(_ & _ & ->)|(_ & _ & _ & ->)]; done. }
  destruct Hframe as [Haddr Hid]. by rewrite Hid.
Qed.





(** ** Where the slaves are registered *)

Lemma dict_get_In {V : Type} (k : string) (v : V) (d : list (string * V)) :
  NoDup (dict_keys d) -> In (k, v) d -> dict_get k d = Some v.
Proof.
  induction d as [|[k0 v0] d IH]; cbn [dict_keys map fst dict_get]; [done|].
  intros Hnd [Heq|Hin].
  - injection Heq as -> ->. by destruct (decide (k = k)).
  - apply NoDup_cons in Hnd as [Hk0 Hnd].
    destruct (decide (k = k0)) as [->|Hne]; [|by apply IH].
    destruct Hk0. apply list_elem_of_In. change (In (fst (k0, v)) (map fst d)).
    by apply in_map.
Qed.

Lemma map_lookup_Some {A B : Type} (f : A -> B) (l : list A) (k : nat) (x : A) :
  l !! k = Some x -> map f l !! k = Some (f x).
Proof.
  revert k. induction l as [|y l IH]; intros [|k] Hk; try done.
  - by injection Hk as ->.
  - by apply IH.
Qed.

Section WorkerSlots.
Context {M : Type} `{PyNumber M}.
Implicit Types (c : client M) (ws : list (string * worker_info M)).

(** The entry of a host names a worker of the snapshot on that host. *)
Lemma aggregate_hosts_entry ws h e :
  In (h, e) (aggregate_hosts ws) ->
  dict_get h (aggregate_hosts ws) = Some e /\
  exists i, In (entry_address e, i) ws /\ host i = h.
Proof.
  intros Hin.
  assert (Hget : dict_get h (aggregate_hosts ws) = Some e)
    by (apply dict_get_In; [apply aggregate_hosts_keys | done]).
  split; [done|]. rewrite aggregate_hosts_get in Hget.
  destruct (workers_on h ws) as [|[a i] rest] eqn:Hon; [done|].
  injection Hget as <-. cbn [entry_address].
  destruct (workers_on_head _ _ _ _ _ Hon) as (before & after & -> & Hh & _).
  exists i. split; [|done]. apply in_app_iff. right. by left.
Qed.

(** Under distinct worker addresses, distinct hosts have distinct
    representatives. *)
Lemma aggregate_hosts_representatives ws :
  NoDup (map fst ws) ->
  NoDup (map entry_address (dict_values (aggregate_hosts ws))).
Proof.
  intros Hnd. unfold dict_values. rewrite map_map.
  apply (NoDup_fmap_2_strong (fun he => entry_address (snd he))).
  - intros [h e] [h' e'] Hin Hin' Haddr. cbn [snd] in Haddr.
    apply list_elem_of_In in Hin, Hin'.
    destruct (aggregate_hosts_entry ws h e Hin) as (Hget & i & Hi & Hh).
    destruct (aggregate_hosts_entry ws h' e' Hin') as (Hget' & i' & Hi' & Hh').
    rewrite Haddr in Hi.
    assert (Hii : Some i = Some i').
    { rewrite <- (dict_get_In (entry_address e') i ws) by done.
      by rewrite <- (dict_get_In (entry_address e') i' ws) by done. }
    injection Hii as ->. assert (h = h') as -> by congruence.
    f_equal. congruence.
  - apply (NoDup_fmap_1 fst). apply aggregate_hosts_keys.
Qed.

Lemma _run_start_slave_one master cores memory addr c w :
  dict_get addr (workers c) = Some w ->
  exists w',
    dict_get addr (workers (_run_start_slave master cores memory [addr] c)) = Some w' /\
    extensions (worker_server w') !! "spark" = Some (length (processes c)) /\
    (forall addr', addr' <> addr ->
       dict_get addr' (workers (_run_start_slave master cores memory [addr] c)) =
       dict_get addr' (workers c)) /\
    dict_keys (workers (_run_start_slave master cores memory [addr] c)) =
      dict_keys (workers c) /\
    length (processes (_run_start_slave master cores memory [addr] c)) =
      S (length (processes c)).
Proof.
  intros Hw. unfold _run_start_slave. cbn [fold_left].
  unfold start_slave_on. cbn [workers processes]. rewrite Hw.
  unfold start_slave, Popen. cbn [workers processes].
  eexists. split; [rewrite dict_get_set; by destruct (decide (addr = addr))|].
  cbn [worker_server extensions].
  split; [apply lookup_insert_eq|].
  split; [intros addr' Hne; rewrite dict_get_set; by destruct (decide (addr = addr'))|].
  split.
  - apply dict_keys_set_present, dict_get_Some_In. by rewrite Hw.
  - rewrite length_app. simpl. lia.
Qed.

Lemma launch_slaves_slots master (entries : list (host_entry M)) c :
  NoDup (map entry_address entries) ->
  Forall (fun e => In (entry_address e) (dict_keys (workers c))) entries ->
  (forall k e,
      entries !! k = Some e ->
      exists w',
        dict_get (entry_address e) (workers (launch_slaves master entries c)) = Some w' /\
        extensions (worker_server w') !! "spark" = Some (length (processes c) + k)%nat) /\
  (forall addr,
      ~ In addr (map entry_address entries) ->
      dict_get addr (workers (launch_slaves master entries c)) = dict_get addr (workers c)).
Proof.
  unfold launch_slaves. revert c.
  induction entries as [|e entries IH]; intros c Hnd Hall; cbn [fold_left].
  - split; [intros k e Hk; by rewrite lookup_nil in Hk | done].
  - cbn [map] in Hnd. apply NoDup_cons in Hnd as [He Hnd].
    inversion Hall as [|? ? Hin Hall']; subst.
    apply dict_get_Some_In in Hin as [w Hw].
    destruct (_run_start_slave_one master (entry_cores e) (py_int (entry_memory e))
                (entry_address e) c w Hw) as (w' & Hget & Hslot & Hother & Hkeys & Hlen).
    set (c1 := _run_start_slave master (entry_cores e) (py_int (entry_memory e))
                 [entry_address e] c) in *.
    destruct (IH c1 Hnd) as [IHslots IHother]; [by rewrite Hkeys|].
    split.
    + intros [|k] e' Hk; cbn in Hk.
      * injection Hk as <-. exists w'. rewrite IHother by (by rewrite <- list_elem_of_In).
        split; [done|]. by rewrite Nat.add_0_r.
      * destruct (IHslots k e' Hk) as (w'' & Hget' & Hslot').
        exists w''. split; [done|]. rewrite Hslot', Hlen. f_equal. lia.
    + intros addr Haddr. cbn [map] in Haddr.
      rewrite IHother by (intros ?; apply Haddr; by right).
      apply Hother. intros ->. apply Haddr. by left.
Qed.
End WorkerSlots.

(** X13: on a cluster whose workers have distinct addresses, a run of the
    forward bridge that returns has registered the slave of each host, and
    no other, on that host's representative worker: for the entry at
    position [k] of [hosts], the ['spark'] slot of the worker at its
    address holds the handle of the slave launched for it, the process
    [k + 1] places after those that were there. A worker that represents
    no host is left as it was. *)
Theorem forward_bridge_worker_slots :
  forall (M : Type) (N : PyNumber M) (c : client M) (sc : SparkContext) (c' : client M),
    NoDup (dict_keys (workers c)) ->
    _dask_to_spark c = (Ok sc, c') ->
    let entries := dict_values (aggregate_hosts (identity_workers c)) in
    (forall k e,
        entries !! k = Some e ->
        exists w' master,
          dict_get (entry_address e) (workers c') = Some w' /\
          extensions (worker_server w') !! "spark" = Some (length (processes c) + 1 + k)%nat /\
          sc = SparkContext_at master /\
          processes c' !! (length (processes c) + 1 + k)%nat =
            Some {| argv := slave_argv master e; alive := true |}) /\
    (forall addr,
        ~ In addr (map entry_address entries) ->
        dict_get addr (workers c') = dict_get addr (workers c)).
Proof.
  intros M N c sc c' Hnd Hrun entries. subst entries.
  set (entries := dict_values (aggregate_hosts (identity_workers c))).
  destruct (forward_bridge_success c sc c' Hrun) as (scheme & h & p & Hsplit & Hne & Hsc & Hc').
  destruct (forward_bridge_effect c sc c' Hrun) as (host_arg & Hsc' & Hprocs & _).
  destruct (_run_on_scheduler_start_master_frame c) as [_ Hworkers].
  assert (Hkeys : dict_keys (workers c) = map fst (identity_workers c))
    by (unfold identity_workers, dict_keys; by rewrite map_map).
  assert (Hlen1 : length (processes (snd (_run_on_scheduler_start_master c))) =
                  (length (processes c) + 1)%nat).
  { unfold _run_on_scheduler_start_master.
    rewrite (start_master_returns _ _ _ _ _ _ Hsplit). cbn [snd processes].
    by rewrite length_app. }
  destruct (launch_slaves_slots ("spark://" +:+ strip ":/" h +:+ ":" +:+ str 7077) entries
              (snd (_run_on_scheduler_start_master c))) as [Hslots Hother].
  { subst entries. apply aggregate_hosts_representatives. by rewrite <- Hkeys. }
  { rewrite Hworkers, Hkeys. apply aggregate_hosts_addresses. }
  fold entries in Hc'. rewrite <- Hc' in Hslots, Hother. split.
  - intros k e Hk. destruct (Hslots k e Hk) as (w' & Hget & Hslot).
    exists w', ("spark://" +:+ host_arg +:+ ":7077").
    split; [done|]. split; [by rewrite Hslot, Hlen1|]. split; [done|].
    rewrite Hprocs. rewrite lookup_app_r by lia.
    replace (length (processes c) + 1 + k - length (processes c))%nat with (S k) by lia.
    cbn [lookup list_lookup]. fold entries.
    by apply (map_lookup_Some (slave_process ("spark://" +:+ host_arg +:+ ":7077"))).
  - intros addr Haddr. rewrite Hother by done. by rewrite Hworkers.
Qed.

Lemma forward_bridge_worker_slots_witness :
  exists w' master,
    dict_get "w3" (workers (snd (_dask_to_spark (fresh_client "tcp://10.0.0.1:8786" scenario)))) =
      Some w' /\
    extensions (worker_server w') !! "spark" = Some 2%nat /\
    SparkContext_at "spark://10.0.0.1:7077" = SparkContext_at master /\
    processes (snd (_dask_to_spark (fresh_client "tcp://10.0.0.1:8786" scenario))) !! 2%nat =
      Some {| argv := slave_argv master
                        {| entry_address := "w3"; entry_cores := 8;
                           entry_memory := 16000000000 |};
              alive := true |}.
Proof.
  assert (Hnd : NoDup (dict_keys (workers (fresh_client (M:=Z) "tcp://10.0.0.1:8786" scenario)))).
  { cbn [fresh_client workers scenario map fst dict_keys].
    repeat (apply NoDup_cons_2;
            [intros Hin;
             repeat (apply elem_of_cons in Hin as [Hin|Hin]; [discriminate Hin|]);
             by apply elem_of_nil in Hin|]).
    apply NoDup_nil_2. }
  exact (proj1 (forward_bridge_worker_slots Z _ (fresh_client "tcp://10.0.0.1:8786" scenario)
                  _ _ Hnd (surjective_pairing _))
           1%nat
           {| entry_address := "w3"; entry_cores := 8; entry_memory := 16000000000 |}
           eq_refl).
Defined.

(** ** [start_slave] on one worker, and [start_worker] in one slot *)

(** X14: [start_slave] keeps one handle per worker, the last: after two
    calls on a worker its ['spark'] slot holds the second slave while the
    first is still running; both calls return ['OK'], and both slaves are
    terminated when the worker's process exits. *)
Theorem start_slave_twice :
  forall (master1 master2 : string) (cores1 cores2 : Z) (memory1 memory2 : Q)
         (dask_worker : server) (os : list process),
    exists worker1 os1 worker2 os2,
      start_slave master1 cores1 memory1 dask_worker os = ("OK", worker1, os1) /\
      start_slave master2 cores2 memory2 worker1 os1 = ("OK", worker2, os2) /\
      extensions worker1 !! "spark" = Some (length os) /\
      extensions worker2 !! "spark" = Some (S (length os)) /\
      alive <$> os2 !! length os = Some true /\
      alive <$> os2 !! S (length os) = Some true /\
      alive <$> run_atexit worker2 os2 !! length os = Some false /\
      alive <$> run_atexit worker2 os2 !! S (length os) = Some false.
Proof.
  intros master1 master2 cores1 cores2 memory1 memory2 w os.
  unfold start_slave, Popen.
  eexists _, _, _, _. split; [reflexivity|]. split; [reflexivity|].
  cbn [extensions atexit].
  split; [apply lookup_insert_eq|].
  split; [rewrite length_app, Nat.add_1_r; apply lookup_insert_eq|].
  match goal with
  | |- context [(os ++ [?p1]) ++ [?p2]] =>
      assert (H1 : ((os ++ [p1]) ++ [p2]) !! length os = Some p1)
        by (rewrite <- app_assoc; by rewrite lookup_app_r, Nat.sub_diag by lia);
      assert (H2 : ((os ++ [p1]) ++ [p2]) !! S (length os) = Some p2)
        by (rewrite lookup_app_r by (rewrite length_app; simpl; lia);
            rewrite length_app; simpl;
            by replace (S (length os) - (length os + 1))%nat with 0%nat by lia)
  end.
  split; [by rewrite H1|]. split; [by rewrite H2|].
  unfold run_atexit. cbn [atexit]. rewrite !terminate_all_alive, H1, H2.
  rewrite length_app. cbn [length]. rewrite Nat.add_1_r.
  split.
  - destruct (decide (length os ∈ rev ((atexit w ++ [length os]) ++ [S (length os)]))) as [|Hn];
      [done|].
    destruct Hn. apply list_elem_of_In. rewrite <- in_rev, !in_app_iff. simpl. tauto.
  - destruct (decide (S (length os) ∈ rev ((atexit w ++ [length os]) ++ [S (length os)])))
      as [|Hn]; [done|].
    destruct Hn. apply list_elem_of_In. rewrite <- in_rev, !in_app_iff. simpl. tauto.
Qed.

Lemma start_worker_closes (address : string) (statuses : list string) (s : slot) :
  global_worker s = None ->
  In "closed" statuses ->
  start_worker address statuses s =
  (Returned ["completed"],
   {| global_worker := None;
      started := started s ++ [address];
      stdout := stdout s ++ ["Started worker"] |}).
Proof.
  intros Hfree Hclosed.
  apply list_elem_of_In, list_elem_of_split_l in Hclosed as (before & after & -> & Hbefore).
  unfold start_worker, start_worker_enter. rewrite Hfree, fold_left_app.
  rewrite start_worker_poll_waiting.
  - cbn [fold_left start_worker_poll]. destruct (decide ("closed" = "closed")); [|done].
    apply start_worker_poll_returned.
  - apply Forall_forall. intros status Hin ->. by apply Hbefore.
Qed.

(** X15: a slot is free again once a call of [start_worker] has returned
    [['completed']]. Calls made one after the other in a free slot, each
    of which gets to read the status ['closed'], all return
    [['completed']]; each has started one worker, with the address it was
    given, and the marker is cleared at the end. *)
Theorem start_workers_in_sequence :
  forall (runs : list (string * list string)) (s : slot),
    global_worker s = None ->
    Forall (fun run => In "closed" (snd run)) runs ->
    start_workers runs s =
    (map (fun _ => Returned ["completed"]) runs,
     {| global_worker := None;
        started := started s ++ map fst runs;
        stdout := stdout s ++ map (fun _ => "Started worker") runs |}).
Proof.
  intros runs s Hfree Hruns. unfold start_workers.
  assert (Hgen : forall frames,
             fold_left
               (fun acc run =>
                  let '(f, s') := start_worker (fst run) (snd run) (snd acc) in
                  (fst acc ++ [f], s'))
               runs (frames, s) =
             (frames ++ map (fun _ => Returned ["completed"]) runs,
              {| global_worker := None;
                 started := started s ++ map fst runs;
                 stdout := stdout s ++ map (fun _ => "Started worker") runs |})).
  { revert s Hfree. induction Hruns as [|[address statuses] runs Hclosed _ IH];
      intros s Hfree frames; cbn [fold_left map fst snd].
    - rewrite !app_nil_r. destruct s. cbn in Hfree. by subst.
    - rewrite (start_worker_closes address statuses s Hfree Hclosed).
      rewrite IH by done. cbn [started stdout]. by rewrite <- !app_assoc. }
  apply (Hgen []).
Qed.

Lemma start_workers_in_sequence_witness :
  start_workers [("tcp://10.0.0.1:8786", ["running"; "closed"]); ("tcp://10.0.0.1:8786", ["closed"])]
    {| global_worker := None; started := []; stdout := [] |} =
  ([Returned ["completed"]; Returned ["completed"]],
   {| global_worker := None;
      started := ["tcp://10.0.0.1:8786"; "tcp://10.0.0.1:8786"];
      stdout := ["Started worker"; "Started worker"] |}).
Proof.
  refine (start_workers_in_sequence
            [("tcp://10.0.0.1:8786", ["running"; "closed"]); ("tcp://10.0.0.1:8786", ["closed"])]
            {| global_worker := None; started := []; stdout := [] |} eq_refl _).
  apply Forall_cons. split; [simpl; auto|].
  apply Forall_cons. split; [simpl; auto|]. apply Forall_nil_2.
Defined.

(** ** From the snapshot to the command line of a slave *)

Lemma dict_get_lookup {V : Type} (k : string) (v : V) (d : list (string * V)) :
  dict_get k d = Some v -> exists n, d !! n = Some (k, v).
Proof.
  induction d as [|[k0 v0] d IH]; cbn [dict_get]; [done|].
  destruct (decide (k = k0)) as [->|Hne].
  - intros [= ->]. by exists 0%nat.
  - intros Hget. destruct (IH Hget) as [n Hn]. by exists (S n).
Qed.


